(** * Exchange fan controller (mcp9808_rtc_Andee_log.ino)

    A shallow embedding of the fan run-state machine of the sketch, of the
    door delay it applies to the sliding-door switch and of the two
    duty-cycle helpers [calcPeriodRatio] and [calcMovingAverage], followed by
    the properties established about them.

    The target is the ATmega328 of the Arduino Uno: [unsigned long] is a
    32-bit word, [int] a 16-bit two's complement word and [float] the IEEE-754
    binary32 format, modelled with the executable specification of the
    Standard Library instantiated at 24 bits of precision. *)

From Stdlib Require Import ZArith Bool List Lia.
From Stdlib Require Import Floats.SpecFloat.
Import ListNotations.
Local Open Scope Z_scope.

(** ** Machine arithmetic *)

Module AVR.

(** [unsigned long]: arithmetic modulo 2^32, on values in [0, 2^32). *)
Definition uadd (a b : Z) : Z := (a + b) mod 2 ^ 32.
Definition usub (a b : Z) : Z := (a - b) mod 2 ^ 32.

(** [int]: 16-bit two's complement. *)
Definition int_range (z : Z) : Prop := - 2 ^ 15 <= z < 2 ^ 15.
Definition int16 (z : Z) : Z := (z + 2 ^ 15) mod 2 ^ 16 - 2 ^ 15.

End AVR.

(** [float]: IEEE-754 binary32, round to nearest even. *)

Module F32.

Definition prec : Z := 24.
Definition emax : Z := 128.

Definition float : Type := spec_float.

Definition zero : float := S754_zero false.
Definition nan : float := S754_nan.
Definition pinf : float := S754_infinity false.

(** Conversion of an integer, as the casts [(float)] of the sketch do. *)
Definition of_Z (z : Z) : float := binary_normalize prec emax z 0 false.

Definition add : float -> float -> float := SFadd prec emax.
Definition mul : float -> float -> float := SFmul prec emax.
Definition div : float -> float -> float := SFdiv prec emax.

Definition ltb : float -> float -> bool := SFltb.
Definition leb : float -> float -> bool := SFleb.

(** [a > b] and [a >= b] of C. *)
Definition gtb (a b : float) : bool := ltb b a.
Definition geb (a b : float) : bool := leb b a.

Definition is_zero (x : float) : bool :=
  match x with S754_zero _ => true | _ => false end.

End F32.

Definition float : Type := F32.float.

(** ** Calibration values *)

Definition doorDelay : Z := 120.
Definition maxN : Z := 64.

(** ** Duty-cycle helpers *)

(** [float calcPeriodRatio (unsigned long currentT, unsigned long onT,
    unsigned long periodT)].  The two [if]s step a time that lies before the
    period start forward by one day; the subtractions are those of
    [unsigned long]. *)
Definition calcPeriodRatio (currentT onT periodT : Z) : float :=
  let currentT := if periodT >? currentT then AVR.uadd currentT 86400 else currentT in
  let onT := if periodT >? onT then AVR.uadd onT 86400 else onT in
  F32.div (F32.of_Z (AVR.usub currentT onT)) (F32.of_Z (AVR.usub currentT periodT)).

(** The denominator handed to the division, after the wrap adjustment. *)
Definition periodDenominator (currentT periodT : Z) : Z :=
  let currentT := if periodT >? currentT then AVR.uadd currentT 86400 else currentT in
  AVR.usub currentT periodT.

(** The numerator handed to the division, after the wrap adjustment. *)
Definition periodNumerator (currentT onT periodT : Z) : Z :=
  let currentT := if periodT >? currentT then AVR.uadd currentT 86400 else currentT in
  let onT := if periodT >? onT then AVR.uadd onT 86400 else onT in
  AVR.usub currentT onT.

(** [float calcMovingAverage (float mA, float Xi, int & count)].  [count] is
    passed by reference: the result carries its value after the call. *)
Definition calcMovingAverage (mA Xi : float) (count : Z) : float * Z :=
  let count := if count <? maxN then AVR.int16 (count + 1) else count in
  let mAout :=
    F32.div (F32.add (F32.mul mA (F32.of_Z (AVR.int16 (count - 1)))) Xi)
            (F32.of_Z count) in
  (mAout, count).

(** ** Controller state *)

Inductive Level : Type := LOW | HIGH.

(** The four values [runState] takes (the [#define]s of the sketch). *)
Inductive RunState : Type :=
| notRunning
| Running
| RunningAdjusting
| notRunningAdjusting.

Definition RunState_eqb (a b : RunState) : bool :=
  match a, b with
  | notRunning, notRunning
  | Running, Running
  | RunningAdjusting, RunningAdjusting
  | notRunningAdjusting, notRunningAdjusting => true
  | _, _ => false
  end.

(** The global variables the control part of [loop] reads and writes, and
    the output latch of the relay pin. *)
Record Globals : Type := mkGlobals {
  adjustmentEnabled : bool;
  currentTime : Z;
  doorComplete : Z;
  SSbedroom : bool;
  SSoffice : bool;
  SSkitchen : bool;
  SSfurnace : bool;
  SSrunning : bool;
  desiredRatio : float;
  actualRatio : float;
  movingAverage : float;
  averageCount : Z;
  runState : RunState;
  onPeriodStart : Z;
  totPeriodStart : Z;
  relayControlPin : Level
}.

Definition set_currentTime (v : Z) (g : Globals) : Globals :=
  mkGlobals (adjustmentEnabled g) v (doorComplete g) (SSbedroom g)
    (SSoffice g) (SSkitchen g) (SSfurnace g) (SSrunning g) (desiredRatio g)
    (actualRatio g) (movingAverage g) (averageCount g) (runState g)
    (onPeriodStart g) (totPeriodStart g) (relayControlPin g).

Definition set_doorComplete (v : Z) (g : Globals) : Globals :=
  mkGlobals (adjustmentEnabled g) (currentTime g) v (SSbedroom g)
    (SSoffice g) (SSkitchen g) (SSfurnace g) (SSrunning g) (desiredRatio g)
    (actualRatio g) (movingAverage g) (averageCount g) (runState g)
    (onPeriodStart g) (totPeriodStart g) (relayControlPin g).

Definition set_SSbedroom (v : bool) (g : Globals) : Globals :=
  mkGlobals (adjustmentEnabled g) (currentTime g) (doorComplete g) v
    (SSoffice g) (SSkitchen g) (SSfurnace g) (SSrunning g) (desiredRatio g)
    (actualRatio g) (movingAverage g) (averageCount g) (runState g)
    (onPeriodStart g) (totPeriodStart g) (relayControlPin g).

Definition set_SSoffice (v : bool) (g : Globals) : Globals :=
  mkGlobals (adjustmentEnabled g) (currentTime g) (doorComplete g) (SSbedroom g)
    v (SSkitchen g) (SSfurnace g) (SSrunning g) (desiredRatio g)
    (actualRatio g) (movingAverage g) (averageCount g) (runState g)
    (onPeriodStart g) (totPeriodStart g) (relayControlPin g).

Definition set_SSkitchen (v : bool) (g : Globals) : Globals :=
  mkGlobals (adjustmentEnabled g) (currentTime g) (doorComplete g) (SSbedroom g)
    (SSoffice g) v (SSfurnace g) (SSrunning g) (desiredRatio g)
    (actualRatio g) (movingAverage g) (averageCount g) (runState g)
    (onPeriodStart g) (totPeriodStart g) (relayControlPin g).

Definition set_SSfurnace (v : bool) (g : Globals) : Globals :=
  mkGlobals (adjustmentEnabled g) (currentTime g) (doorComplete g) (SSbedroom g)
    (SSoffice g) (SSkitchen g) v (SSrunning g) (desiredRatio g)
    (actualRatio g) (movingAverage g) (averageCount g) (runState g)
    (onPeriodStart g) (totPeriodStart g) (relayControlPin g).

Definition set_SSrunning (v : bool) (g : Globals) : Globals :=
  mkGlobals (adjustmentEnabled g) (currentTime g) (doorComplete g) (SSbedroom g)
    (SSoffice g) (SSkitchen g) (SSfurnace g) v (desiredRatio g)
    (actualRatio g) (movingAverage g) (averageCount g) (runState g)
    (onPeriodStart g) (totPeriodStart g) (relayControlPin g).

Definition set_actualRatio (v : float) (g : Globals) : Globals :=
  mkGlobals (adjustmentEnabled g) (currentTime g) (doorComplete g) (SSbedroom g)
    (SSoffice g) (SSkitchen g) (SSfurnace g) (SSrunning g) (desiredRatio g)
    v (movingAverage g) (averageCount g) (runState g)
    (onPeriodStart g) (totPeriodStart g) (relayControlPin g).

Definition set_movingAverage (v : float) (g : Globals) : Globals :=
  mkGlobals (adjustmentEnabled g) (currentTime g) (doorComplete g) (SSbedroom g)
    (SSoffice g) (SSkitchen g) (SSfurnace g) (SSrunning g) (desiredRatio g)
    (actualRatio g) v (averageCount g) (runState g)
    (onPeriodStart g) (totPeriodStart g) (relayControlPin g).

Definition set_averageCount (v : Z) (g : Globals) : Globals :=
  mkGlobals (adjustmentEnabled g) (currentTime g) (doorComplete g) (SSbedroom g)
    (SSoffice g) (SSkitchen g) (SSfurnace g) (SSrunning g) (desiredRatio g)
    (actualRatio g) (movingAverage g) v (runState g)
    (onPeriodStart g) (totPeriodStart g) (relayControlPin g).

Definition set_runState (v : RunState) (g : Globals) : Globals :=
  mkGlobals (adjustmentEnabled g) (currentTime g) (doorComplete g) (SSbedroom g)
    (SSoffice g) (SSkitchen g) (SSfurnace g) (SSrunning g) (desiredRatio g)
    (actualRatio g) (movingAverage g) (averageCount g) v
    (onPeriodStart g) (totPeriodStart g) (relayControlPin g).

Definition set_onPeriodStart (v : Z) (g : Globals) : Globals :=
  mkGlobals (adjustmentEnabled g) (currentTime g) (doorComplete g) (SSbedroom g)
    (SSoffice g) (SSkitchen g) (SSfurnace g) (SSrunning g) (desiredRatio g)
    (actualRatio g) (movingAverage g) (averageCount g) (runState g)
    v (totPeriodStart g) (relayControlPin g).

Definition set_totPeriodStart (v : Z) (g : Globals) : Globals :=
  mkGlobals (adjustmentEnabled g) (currentTime g) (doorComplete g) (SSbedroom g)
    (SSoffice g) (SSkitchen g) (SSfurnace g) (SSrunning g) (desiredRatio g)
    (actualRatio g) (movingAverage g) (averageCount g) (runState g)
    (onPeriodStart g) v (relayControlPin g).

Definition set_relayControlPin (v : Level) (g : Globals) : Globals :=
  mkGlobals (adjustmentEnabled g) (currentTime g) (doorComplete g) (SSbedroom g)
    (SSoffice g) (SSkitchen g) (SSfurnace g) (SSrunning g) (desiredRatio g)
    (actualRatio g) (movingAverage g) (averageCount g) (runState g)
    (onPeriodStart g) (totPeriodStart g) v.

(** ** Statements

    A statement transforms the globals and reports the calls
    [digitalWrite(relayControlPin, _)] it made, oldest first. *)

Definition Stmt : Type := Globals -> Globals * list Level.

Definition skip : Stmt := fun g => (g, []).

Definition assign (f : Globals -> Globals) : Stmt := fun g => (f g, []).

Definition seq (s1 s2 : Stmt) : Stmt :=
  fun g =>
    let (g1, w1) := s1 g in
    let (g2, w2) := s2 g1 in
    (g2, w1 ++ w2).

Definition ifte (c : Globals -> bool) (s1 s2 : Stmt) : Stmt :=
  fun g => if c g then s1 g else s2 g.

Definition digitalWrite_relay (v : Level) : Stmt :=
  fun g => (set_relayControlPin v g, [v]).

Declare Scope stmt_scope.
Delimit Scope stmt_scope with stmt.
Notation "s1 ;; s2" := (seq s1 s2)
  (at level 61, right associativity) : stmt_scope.

Local Open Scope stmt_scope.

(** ** Reading the switches

    What one pass of [loop] samples: the clock and the four switch pins. *)
Record Inputs : Type := mkInputs {
  now : Z;
  bedroomSensorInput : Level;
  officeSensorInput : Level;
  kitchenSensorInput : Level;
  furnaceSensorInput : Level
}.

Definition is_LOW (l : Level) : bool :=
  match l with LOW => true | HIGH => false end.

(** [currentTime = now.unixtime();] and the start-up initialisation of
    [onPeriodStart]. *)
Definition readClock (i : Inputs) : Stmt :=
  assign (set_currentTime (now i)) ;;
  ifte (fun g => (onPeriodStart g =? 0) && RunState_eqb (runState g) Running)
       (assign (fun g => set_onPeriodStart (currentTime g) g))
       skip.

(** The sliding-door switch: every change of the reading re-arms
    [doorComplete]; [SSkitchen] follows the reading at once. *)
Definition readKitchen (i : Inputs) : Stmt :=
  ifte (fun _ => is_LOW (kitchenSensorInput i))
       (ifte (fun g => SSkitchen g)
             (assign (fun g => set_doorComplete (AVR.uadd (currentTime g) doorDelay) g))
             skip ;;
        assign (set_SSkitchen false))
       (ifte (fun g => negb (SSkitchen g))
             (assign (fun g => set_doorComplete (AVR.uadd (currentTime g) doorDelay) g))
             skip ;;
        assign (set_SSkitchen true)).

Definition readSensors (i : Inputs) : Stmt :=
  assign (set_SSbedroom (negb (is_LOW (bedroomSensorInput i)))) ;;
  assign (set_SSoffice (negb (is_LOW (officeSensorInput i)))) ;;
  readKitchen i ;;
  assign (set_SSfurnace (negb (is_LOW (furnaceSensorInput i)))) ;;
  ifte (fun g => totPeriodStart g =? 0)
       (assign (fun g => set_totPeriodStart (currentTime g) g))
       skip.

(** ** The run-state machine *)

(** The condition of the [if] that guards the off path, as C parses it:
    [&&] binds tighter than [||], so the delay belongs to the door alone. *)
Definition offRequested (g : Globals) : bool :=
  SSbedroom g || SSoffice g || SSfurnace g ||
  (SSkitchen g && (currentTime g >? doorComplete g)).

(** The door term of that condition. *)
Definition doorSettled (g : Globals) : bool :=
  SSkitchen g && (currentTime g >? doorComplete g).

(** The condition of [case notRunning]. *)
Definition onRequested (g : Globals) : bool :=
  negb (SSbedroom g) && negb (SSoffice g) && negb (SSfurnace g) &&
  (negb (SSkitchen g) && (currentTime g >? doorComplete g)).

(** [actualRatio = calcPeriodRatio (currentTime, onPeriodStart, totPeriodStart);] *)
Definition updateActualRatio : Stmt :=
  assign (fun g =>
    set_actualRatio
      (calcPeriodRatio (currentTime g) (onPeriodStart g) (totPeriodStart g)) g).

(** [movingAverage = calcMovingAverage (movingAverage, actualRatio, averageCount);] *)
Definition foldMovingAverage : Stmt :=
  assign (fun g =>
    let (mA, n) := calcMovingAverage (movingAverage g) (actualRatio g) (averageCount g) in
    set_movingAverage mA (set_averageCount n g)).

Definition caseRunning : Stmt :=
  updateActualRatio ;;
  ifte (fun g => adjustmentEnabled g && F32.gtb (actualRatio g) (desiredRatio g))
       (assign (set_runState notRunningAdjusting))
       skip ;;
  ifte offRequested
       (ifte (fun g => adjustmentEnabled g && F32.ltb (actualRatio g) (desiredRatio g))
             (assign (set_runState RunningAdjusting))
             (assign (set_runState notRunning) ;;
              assign (set_SSrunning false) ;;
              foldMovingAverage ;;
              assign (set_actualRatio (F32.of_Z 0)) ;;
              assign (fun g => set_totPeriodStart (currentTime g) g) ;;
              digitalWrite_relay HIGH))
       skip.

Definition caseNotRunning : Stmt :=
  ifte onRequested
       (assign (set_runState Running) ;;
        assign (set_SSrunning true) ;;
        assign (fun g => set_onPeriodStart (currentTime g) g) ;;
        digitalWrite_relay LOW)
       skip.

Definition caseRunningAdjusting : Stmt :=
  updateActualRatio ;;
  ifte (fun g => F32.gtb (actualRatio g) (desiredRatio g) || negb (adjustmentEnabled g))
       (foldMovingAverage ;;
        assign (set_actualRatio (F32.of_Z 0)) ;;
        assign (fun g => set_totPeriodStart (currentTime g) g) ;;
        digitalWrite_relay HIGH ;;
        assign (set_runState notRunning) ;;
        assign (set_SSrunning false))
       skip.

Definition caseNotRunningAdjusting : Stmt :=
  digitalWrite_relay HIGH ;;
  assign (set_SSrunning false) ;;
  ifte offRequested
       (foldMovingAverage ;;
        assign (set_actualRatio (F32.of_Z 0)) ;;
        assign (fun g => set_totPeriodStart (currentTime g) g) ;;
        assign (set_runState notRunning))
       skip.

(** [switch (runState)]. *)
Definition fanSwitch : Stmt :=
  fun g =>
    match runState g with
    | Running => caseRunning g
    | notRunning => caseNotRunning g
    | RunningAdjusting => caseRunningAdjusting g
    | notRunningAdjusting => caseNotRunningAdjusting g
    end.

(** The control part of one pass of [loop]. *)
Definition controlCycle (i : Inputs) : Stmt :=
  readClock i ;; readSensors i ;; fanSwitch.

(** ** Running the controller over a sequence of passes *)

(** The globals as [switch (runState)] finds them in each pass. *)
Fixpoint switchViews (passes : list Inputs) (g : Globals) : list Globals :=
  match passes with
  | [] => []
  | i :: rest =>
      let g1 := fst ((readClock i ;; readSensors i) g) in
      g1 :: switchViews rest (fst (fanSwitch g1))
  end.

(** ** Concrete states used below *)

(** 30 percent, as [desiredPercent / 100.0] computes it. *)
Definition ratio30 : float := F32.div (F32.of_Z 30) (F32.of_Z 100).

(** Fan running since 900, period started at 800, clock at 1000: the period
    ratio is one half, above the 30 percent asked for; every switch quiet. *)
Definition overTarget : Globals :=
  mkGlobals true 1000 0 false false false false true ratio30
    F32.zero F32.zero 0 Running 900 800 LOW.

(** As [overTarget], adjustment disabled. *)
Definition quietRunning : Globals :=
  mkGlobals false 1000 0 false false false false true ratio30
    F32.zero F32.zero 0 Running 900 800 LOW.

(** Fan running, bedroom window just opened, door delay still pending
    (the deadline 1100 lies after the clock 1000). *)
Definition bedroomOpenEarly : Globals :=
  mkGlobals false 1000 1100 true false false false true ratio30
    F32.zero F32.zero 0 Running 900 800 LOW.

(** Fan kept on in [RunningAdjusting], adjustment then disabled, every
    switch quiet and the door deadline long past. *)
Definition adjustingDisabled : Globals :=
  mkGlobals false 1000 0 false false false false true ratio30
    F32.zero F32.zero 0 RunningAdjusting 900 800 LOW.

(** Every switch closed, clock at 1000. *)
Definition quietInputs : Inputs := mkInputs 1000 LOW LOW LOW LOW.

(** The off path of the [switch]: the body guarded by the off-request
    condition was executed.  From [Running] that body leaves [runState] at
    [RunningAdjusting] or [notRunning] and nothing else does; from
    [notRunningAdjusting] it leaves it at [notRunning]. *)
Definition offPathTaken (g : Globals) : Prop :=
  match runState g with
  | Running =>
      runState (fst (fanSwitch g)) = notRunning \/
      runState (fst (fanSwitch g)) = RunningAdjusting
  | notRunningAdjusting => runState (fst (fanSwitch g)) = notRunning
  | _ => False
  end.

(** ** Auxiliary notions for the proofs *)

(** [nearest_even A B M]: the integer [M] is [A / B] rounded to nearest,
    ties to even.  The last clause is the tighter lower bound that holds at
    the bottom of a binade, where the spacing below is half that above. *)
Definition nearest_even (A B M : Z) : Prop :=
  (2 * M - 1) * B <= 2 * A <= (2 * M + 1) * B /\
  (2 * A = (2 * M + 1) * B -> Z.even M = true) /\
  (2 * A = (2 * M - 1) * B -> Z.even M = true) /\
  (M = 2 ^ 23 -> (4 * M - 1) * B <= 4 * A).

(** The door deadline is not yet reachable by a clock within 60 s of [t0]:
    the door reads closed, or the deadline lies at least [doorDelay] after
    [t0]. *)
Definition doorArmed (t0 : Z) (g : Globals) : Prop :=
  SSkitchen g = false \/ t0 + doorDelay <= doorComplete g.

(** A door opening of 50 s: closed at 990, open at 1000 and 1050, closed
    again at 1060 and 1300. *)
Definition briefBefore : list Inputs := [mkInputs 990 LOW LOW LOW LOW].
Definition briefOpened : list Inputs :=
  [mkInputs 1000 LOW LOW HIGH LOW; mkInputs 1050 LOW LOW HIGH LOW].
Definition briefAfter : list Inputs :=
  [mkInputs 1060 LOW LOW LOW LOW; mkInputs 1300 LOW LOW LOW LOW].

(** ** Start-up and the user's inputs *)

Definition defaultPercent : Z := 30.

Definition set_adjustmentEnabled (v : bool) (g : Globals) : Globals :=
  mkGlobals v (currentTime g) (doorComplete g) (SSbedroom g)
    (SSoffice g) (SSkitchen g) (SSfurnace g) (SSrunning g) (desiredRatio g)
    (actualRatio g) (movingAverage g) (averageCount g) (runState g)
    (onPeriodStart g) (totPeriodStart g) (relayControlPin g).

Definition set_desiredRatio (v : float) (g : Globals) : Globals :=
  mkGlobals (adjustmentEnabled g) (currentTime g) (doorComplete g) (SSbedroom g)
    (SSoffice g) (SSkitchen g) (SSfurnace g) (SSrunning g) v
    (actualRatio g) (movingAverage g) (averageCount g) (runState g)
    (onPeriodStart g) (totPeriodStart g) (relayControlPin g).

(** [desiredPercent / 100.0]: the [int] is converted and divided in
    floating point ([double] is the 32-bit format too). *)
Definition percentRatio (desiredPercent : Z) : float :=
  F32.div (F32.of_Z desiredPercent) (F32.of_Z 100).

(** The globals as their declarations initialise them, those without an
    initialiser being zero, and the relay latch as reset leaves it. *)
Definition bootGlobals : Globals :=
  mkGlobals false 0 0 false false false false false (F32.of_Z 0)
    (F32.of_Z 0) (F32.of_Z 0) 0 notRunning 0 0 LOW.

(** The part of [setup] that concerns the fan: the desired ratio from the
    stored percent (read from the card by [retrievePercent], here an
    argument) and the initial run state from the four switch pins. *)
Definition setup (desiredPercent : Z)
    (bedroom office kitchen furnace : Level) : Stmt :=
  assign (set_desiredRatio (percentRatio desiredPercent)) ;;
  ifte (fun _ => is_LOW bedroom && is_LOW office && is_LOW kitchen && is_LOW furnace)
       (assign (set_runState Running) ;;
        assign (set_SSrunning true) ;;
        digitalWrite_relay LOW)
       (assign (set_runState notRunning) ;;
        assign (set_SSrunning false) ;;
        assign (set_movingAverage (F32.of_Z 0)) ;;
        assign (set_actualRatio (F32.of_Z 0)) ;;
        digitalWrite_relay HIGH).

(** What the user did since the last pass: the slider position and whether
    the enable button was pressed. *)
Record Panel : Type := mkPanel {
  sliderValue : Z;
  enablePressed : bool
}.

(** The globals together with [desiredPercent]. *)
Record Sketch : Type := mkSketch {
  globals : Globals;
  desiredPercent : Z
}.

(** The slider and the enable button, as [loop] handles them before it
    reads the clock. *)
Definition readPanel (p : Panel) (s : Sketch) : Sketch :=
  let s1 :=
    if negb (desiredPercent s =? sliderValue p)
    then mkSketch (set_desiredRatio (percentRatio (sliderValue p)) (globals s))
                  (sliderValue p)
    else s in
  if enablePressed p
  then mkSketch (set_adjustmentEnabled (negb (adjustmentEnabled (globals s1)))
                   (globals s1))
                (desiredPercent s1)
  else s1.

(** One pass of [loop], logging and displays apart. *)
Definition loopPass (p : Panel) (i : Inputs) (s : Sketch) : Sketch * list Level :=
  let s1 := readPanel p s in
  let (g, w) := controlCycle i (globals s1) in
  (mkSketch g (desiredPercent s1), w).

Fixpoint runLoop (passes : list (Panel * Inputs)) (s : Sketch) : Sketch :=
  match passes with
  | [] => s
  | (p, i) :: rest => runLoop rest (fst (loopPass p i s))
  end.

(** The sketch as [setup] leaves it. *)
Definition afterSetup (pct : Z) (bedroom office kitchen furnace : Level) : Sketch :=
  mkSketch (fst (setup pct bedroom office kitchen furnace bootGlobals)) pct.

(** Relay and run state agree: the relay is off (HIGH) in [notRunning] and
    on (LOW) in [Running] and [RunningAdjusting], and [SSrunning], the value
    logged as the fan status, is the state of the relay. *)
Definition relayConsistent (g : Globals) : Prop :=
  SSrunning g = is_LOW (relayControlPin g) /\
  (runState g = notRunning -> relayControlPin g = HIGH) /\
  (runState g = Running -> relayControlPin g = LOW) /\
  (runState g = RunningAdjusting -> relayControlPin g = LOW).

(** Every one of the four inputs reads LOW. *)
Definition allQuiet (i : Inputs) : Prop :=
  bedroomSensorInput i = LOW /\ officeSensorInput i = LOW /\
  kitchenSensorInput i = LOW /\ furnaceSensorInput i = LOW.

(** ** Logging to the card *)

Definition interval : Z := 300.

(** [-1] as it compares with the [unsigned long offset]. *)
Definition appendFailed : Z := 2 ^ 32 - 1.

(** The pieces of text handed to [Andee.appendSD], by the place of the call:
    the six parts of the header line and the parts of a record.  The text
    itself ([sprintf], [dtostrf]) is not modelled. *)
Inductive Chunk : Type :=
| HeaderPart (k : Z)
| RecordStamp
| RecordTemp (ndx : Z)
| RecordAverage
| RecordDesired
| RecordActual
| RecordSwitches.

(** The globals of the logging part of the sketch. *)
Record Logger : Type := mkLogger {
  logData : bool;
  firstTime : bool;
  loggedTime : Z;
  logCount : Z;
  offset : Z
}.

Definition set_logData (v : bool) (l : Logger) : Logger :=
  mkLogger v (firstTime l) (loggedTime l) (logCount l) (offset l).
Definition set_firstTime (v : bool) (l : Logger) : Logger :=
  mkLogger (logData l) v (loggedTime l) (logCount l) (offset l).
Definition set_loggedTime (v : Z) (l : Logger) : Logger :=
  mkLogger (logData l) (firstTime l) v (logCount l) (offset l).
Definition set_logCount (v : Z) (l : Logger) : Logger :=
  mkLogger (logData l) (firstTime l) (loggedTime l) v (offset l).
Definition set_offset (v : Z) (l : Logger) : Logger :=
  mkLogger (logData l) (firstTime l) (loggedTime l) (logCount l) v.

(** The logger as its declarations initialise it; [setup] then assigns
    [logData] from the card. *)
Definition bootLogger (stored : bool) : Logger := mkLogger stored true 0 0 0.

Definition isStamp (c : Chunk) : bool :=
  match c with RecordStamp => true | _ => false end.

Section SDCard.

(** The card, together with the file name buffer, is outside the sketch:
    [appendSD] stands for [Andee.appendSD], giving the value stored into
    [offset] and the card afterwards; [writeSD] for the [Andee.writeSD] of
    [saveLogStatus]; [startFile] for the new file name [writeHeadersToFile]
    prints from the clock. *)
Variable Card : Type.
Variable appendSD : Chunk -> Card -> Z * Card.
Variable writeSD : bool -> Card -> Card.
Variable startFile : Z -> Card -> Card.

(** A logging statement transforms the logger and the card and reports the
    chunks it appended, oldest first. *)
Definition LogStmt : Type := Logger * Card -> (Logger * Card) * list Chunk.

Definition lskip : LogStmt := fun st => (st, []).

Definition lseq (s1 s2 : LogStmt) : LogStmt :=
  fun st =>
    let (st1, t1) := s1 st in
    let (st2, t2) := s2 st1 in
    (st2, t1 ++ t2).

Definition lif (c : Logger -> bool) (s1 s2 : LogStmt) : LogStmt :=
  fun st => if c (fst st) then s1 st else s2 st.

Definition lassign (f : Logger -> Logger) : LogStmt :=
  fun st => ((f (fst st), snd st), []).

(** [offset = Andee.appendSD(filename, ..., errorMsgBuffer);] *)
Definition append (c : Chunk) : LogStmt :=
  fun st =>
    let (r, card) := appendSD c (snd st) in
    ((set_offset r (fst st), card), [c]).

(** [if (offset != -1) { ... offset = Andee.appendSD(...); }] *)
Definition appendIfOk (c : Chunk) : LogStmt :=
  lif (fun l => negb (offset l =? appendFailed)) (append c) lskip.

(** [if (offset == -1) { ...; logData = false; offset = 0; }] *)
Definition stopOnError : LogStmt :=
  lif (fun l => offset l =? appendFailed)
      (lseq (lassign (set_logData false)) (lassign (set_offset 0)))
      lskip.

(** [saveLogStatus (logData)] *)
Definition saveLogStatus : LogStmt :=
  fun st => ((fst st, writeSD (logData (fst st)) (snd st)), []).

(** [writeHeadersToFile ()], called when the clock reads [t]. *)
Definition writeHeadersToFile (t : Z) : LogStmt :=
  lseq (fun st => ((fst st, startFile t (snd st)), []))
 (lseq (append (HeaderPart 1))
 (lseq (appendIfOk (HeaderPart 2))
 (lseq (appendIfOk (HeaderPart 3))
 (lseq (appendIfOk (HeaderPart 4))
 (lseq (appendIfOk (HeaderPart 5))
 (lseq (appendIfOk (HeaderPart 6))
       stopOnError)))))).

(** The toggle button, as [loop] handles it when pressed. *)
Definition toggleLog (t : Z) : LogStmt :=
  lseq (lif logData
            (lseq (lassign (set_logData false)) saveLogStatus)
            (lseq (lassign (set_logData true)) (writeHeadersToFile t)))
       saveLogStatus.

(** The body of [if (! firstTime)]: one record. *)
Definition writeRecord : LogStmt :=
  lseq (append RecordStamp)
 (lseq (fold_right (fun ndx s => lseq (appendIfOk (RecordTemp ndx)) s) lskip
          [0; 1; 2; 3])
 (lseq (appendIfOk RecordAverage)
 (lseq (appendIfOk RecordDesired)
 (lseq (appendIfOk RecordActual)
 (lseq (appendIfOk RecordSwitches)
       (lif (fun l => negb (offset l =? appendFailed))
            (lassign (fun l => set_logCount (AVR.uadd (logCount l) 1) l))
            lskip)))))).

(** The logging part of one pass of [loop], the clock reading [t]. *)
Definition loopLog (t : Z) : LogStmt :=
  lseq (lif (fun l => ((t >=? AVR.uadd (loggedTime l) interval) || firstTime l) &&
                      logData l && negb (offset l =? appendFailed))
            (lseq (lassign (set_loggedTime t))
                  (lif (fun l => negb (firstTime l))
                       writeRecord
                       (lassign (set_firstTime false))))
            lskip)
       stopOnError.

(** One pass as far as logging goes: the toggle button, then the logging
    part.  [pressed] is [Some tn] when the button is pressed, [tn] being the
    clock as [writeHeadersToFile] reads it for the file name; [t] is
    [currentTime]. *)
Definition logPass (pressed : option Z) (t : Z) : LogStmt :=
  lseq (match pressed with Some tn => toggleLog tn | None => lskip end)
       (loopLog t).

(** The clocks of the passes that appended the first chunk of a record, from
    a list of passes given by button and clock. *)
Fixpoint recordTimes (passes : list (option Z * Z)) (st : Logger * Card) : list Z :=
  match passes with
  | [] => []
  | (pressed, t) :: rest =>
      let r := logPass pressed t st in
      if existsb isStamp (snd r)
      then t :: recordTimes rest (fst r)
      else recordTimes rest (fst r)
  end.

End SDCard.

(** The clocks of the passes do not go back, start at [lo] or later, and
    stay clear of the end of the [unsigned long] range. *)
Fixpoint ascending (lo : Z) (passes : list (option Z * Z)) : Prop :=
  match passes with
  | [] => True
  | (_, t) :: rest => lo <= t /\ t + interval < 2 ^ 32 /\ ascending t rest
  end.

(** A card for the examples: it keeps the appended chunks and the saved
    status.  [listAppend room] fails once [room] chunks are on the card,
    [endlessAppend] never does. *)
Record ListCard : Type := mkListCard { chunks : list Chunk; status : bool }.

Definition endlessAppend (c : Chunk) (card : ListCard) : Z * ListCard :=
  (1, mkListCard (chunks card ++ [c]) (status card)).

Definition listAppend (room : nat) (c : Chunk) (card : ListCard) : Z * ListCard :=
  if (length (chunks card) <? room)%nat
  then endlessAppend c card
  else (appendFailed, card).

Definition listWrite (b : bool) (card : ListCard) : ListCard :=
  mkListCard (chunks card) b.

Definition listStart (t : Z) (card : ListCard) : ListCard := card.

(** Consecutive elements lie at least [interval] apart. *)
Fixpoint spaced (l : list Z) : Prop :=
  match l with
  | a :: (b :: _) as rest => a + interval <= b /\ spaced rest
  | _ => True
  end.

(** The chunks of a record, in the order of the calls. *)
Definition recordChunks : list Chunk :=
  [RecordStamp; RecordTemp 0; RecordTemp 1; RecordTemp 2; RecordTemp 3;
   RecordAverage; RecordDesired; RecordActual; RecordSwitches].

(** The parts of the header line, in the order of the calls. *)
Definition headerChunks : list Chunk :=
  [HeaderPart 1; HeaderPart 2; HeaderPart 3; HeaderPart 4; HeaderPart 5;
   HeaderPart 6].

(** * Properties *)

Arguments F32.div : simpl never.
Arguments F32.add : simpl never.
Arguments F32.mul : simpl never.
Arguments F32.of_Z : simpl never.
Arguments F32.ltb : simpl never.
Arguments F32.gtb : simpl never.
Arguments calcPeriodRatio : simpl never.

(** ** Executing statements *)

Ltac unfold_stmt :=
  unfold fanSwitch, caseRunning, caseNotRunning, caseRunningAdjusting,
    caseNotRunningAdjusting, updateActualRatio, foldMovingAverage,
    controlCycle, readClock, readSensors, readKitchen,
    seq, ifte, assign, skip, digitalWrite_relay in *.

Ltac split_if :=
  match goal with
  | |- context [if ?c then _ else _] => destruct c eqn:?
  end.

Lemma offRequested_spec (g : Globals) :
  offRequested g = true <->
  SSbedroom g = true \/ SSoffice g = true \/ SSfurnace g = true \/
  (SSkitchen g = true /\ doorComplete g < currentTime g).
Proof.
  unfold offRequested.
  rewrite !orb_true_iff, andb_true_iff, Z.gtb_lt. tauto.
Qed.

(** ** Binary32 arithmetic

    What the claims need of the binary32 operations: the conversion of a
    32-bit unsigned value is a positive finite number, exact below 2^24, and
    the quotient of two such exact conversions is the nearest-even rounding
    of the exact quotient, hence monotone. *)

Module Binary32.

(** *** Bit lengths *)

Lemma digits2_size (p : positive) : digits2_pos p = Pos.size p.
Proof. induction p; cbn; congruence. Qed.

Lemma digits2_bounds (p : positive) :
  2 ^ (Zpos (digits2_pos p) - 1) <= Zpos p < 2 ^ Zpos (digits2_pos p).
Proof.
  rewrite digits2_size. split.
  - pose proof (Pos.size_le p) as H.
    apply Pos2Z.pos_le_pos in H. rewrite Pos2Z.inj_pow in H.
    replace (Zpos (Pos.size p)) with (Z.succ (Zpos (Pos.size p) - 1)) in H by lia.
    rewrite Z.pow_succ_r in H by lia. lia.
  - pose proof (Pos.size_gt p) as H.
    apply Pos2Z.pos_lt_pos in H. rewrite Pos2Z.inj_pow in H. exact H.
Qed.

Lemma digits2_unique (p : positive) (k : Z) :
  2 ^ (k - 1) <= Zpos p < 2 ^ k -> Zpos (digits2_pos p) = k.
Proof.
  intros [Hlo Hhi]. destruct (digits2_bounds p) as [Dlo Dhi].
  assert (0 < k).
  { destruct (Z.lt_trichotomy k 0) as [Hk | [Hk | Hk]]; try lia.
    - rewrite Z.pow_neg_r in Hhi by lia. lia.
    - subst k. cbn in Hhi. lia. }
  assert (Zpos (digits2_pos p) - 1 < k).
  { apply (Z.pow_lt_mono_r_iff 2); lia. }
  assert (k - 1 < Zpos (digits2_pos p)).
  { apply (Z.pow_lt_mono_r_iff 2); lia. }
  lia.
Qed.

Lemma iter_xO_mul (p d : positive) :
  Zpos (Pos.iter xO p d) = Zpos p * 2 ^ Zpos d.
Proof.
  induction d as [ | d IH] using Pos.peano_ind.
  - cbn. lia.
  - rewrite Pos.iter_succ, Pos2Z.inj_xO, IH, Pos2Z.inj_succ, Z.pow_succ_r by lia.
    lia.
Qed.

(** *** Rounding a mantissa of 24 or 25 digits *)

Lemma loc_of_shr_record_of_loc (m : Z) (l : location) :
  loc_of_shr_record (shr_record_of_loc m l) = l.
Proof. destruct l as [ | [ | | ]]; reflexivity. Qed.

Lemma shr_m_of_loc (m : Z) (l : location) : shr_m (shr_record_of_loc m l) = m.
Proof. destruct l as [ | [ | | ]]; reflexivity. Qed.

Lemma rne_cases (m : Z) (l : location) :
  round_nearest_even m l = m \/ round_nearest_even m l = m + 1.
Proof.
  destruct l as [ | [ | | ]]; cbn; auto. destruct (Z.even m); auto.
Qed.

(** No shift is needed on a mantissa of 24 digits. *)
Lemma shr_fexp_24 (m : positive) (e : Z) (l : location) :
  Zpos (digits2_pos m) = 24 -> -149 <= e ->
  shr_fexp 24 128 (Zpos m) e l = (shr_record_of_loc (Zpos m) l, e).
Proof.
  intros Hd He. unfold shr_fexp. cbn [Zdigits2]. rewrite Hd.
  replace (fexp 24 128 (24 + e) - e) with 0 by (unfold fexp, emin; lia).
  reflexivity.
Qed.

(** One shift is needed on a mantissa of 25 digits. *)
Lemma shr_fexp_25 (m : positive) (e : Z) (l : location) :
  Zpos (digits2_pos m) = 25 -> -149 <= e ->
  shr_fexp 24 128 (Zpos m) e l = (shr_1 (shr_record_of_loc (Zpos m) l), e + 1).
Proof.
  intros Hd He. unfold shr_fexp. cbn [Zdigits2]. rewrite Hd.
  replace (fexp 24 128 (25 + e) - e) with 1 by (unfold fexp, emin; lia).
  reflexivity.
Qed.

(** Packing a rounded mantissa that has 24 digits, or is exactly 2^24. *)
Lemma pack_rounded (s : bool) (M0 e : Z) :
  2 ^ 23 <= M0 <= 2 ^ 24 -> -149 <= e -> e + 1 <= 104 ->
  (let '(mrs, e') := shr_fexp 24 128 M0 e loc_Exact in
   match shr_m mrs with
   | Z0 => S754_zero s
   | Zpos m => if e' <=? 128 - 24 then S754_finite s m e' else S754_infinity s
   | Zneg _ => S754_nan
   end) =
  if M0 =? 2 ^ 24 then S754_finite s (2 ^ 23)%positive (e + 1)
  else S754_finite s (Z.to_pos M0) e.
Proof.
  intros HM He He'.
  destruct (Z.eqb_spec M0 (2 ^ 24)) as [-> | Hne].
  - rewrite (shr_fexp_25 (2 ^ 24)%positive) by (try reflexivity; lia).
    cbn [shr_record_of_loc shr_1 shr_m Pos.pow Pos.iter Pos.mul].
    destruct (Z.leb_spec (e + 1) (128 - 24)); [ reflexivity | lia ].
  - destruct M0 as [ | M | M]; try (cbn in HM; lia).
    rewrite shr_fexp_24; [ | apply digits2_unique; lia | lia ].
    cbn [shr_record_of_loc shr_m Z.to_pos].
    destruct (Z.leb_spec e (128 - 24)); [ reflexivity | lia ].
Qed.

Lemma binary_round_aux_24 (s : bool) (m : positive) (e : Z) (l : location) :
  Zpos (digits2_pos m) = 24 -> -149 <= e -> e + 1 <= 104 ->
  binary_round_aux 24 128 s (Zpos m) e l =
  let M0 := round_nearest_even (Zpos m) l in
  if M0 =? 2 ^ 24 then S754_finite s (2 ^ 23)%positive (e + 1)
  else S754_finite s (Z.to_pos M0) e.
Proof.
  intros Hd He He'. unfold binary_round_aux.
  rewrite shr_fexp_24 by assumption.
  rewrite shr_m_of_loc, loc_of_shr_record_of_loc.
  apply pack_rounded; try assumption.
  pose proof (digits2_bounds m) as Hb. rewrite Hd in Hb.
  destruct (rne_cases (Zpos m) l) as [-> | ->]; lia.
Qed.

Lemma binary_round_aux_25 (s : bool) (m : positive) (e : Z) (l : location) :
  Zpos (digits2_pos m) = 25 -> -149 <= e -> e + 2 <= 104 ->
  binary_round_aux 24 128 s (Zpos m) e l =
  let mrs := shr_1 (shr_record_of_loc (Zpos m) l) in
  let M0 := round_nearest_even (shr_m mrs) (loc_of_shr_record mrs) in
  if M0 =? 2 ^ 24 then S754_finite s (2 ^ 23)%positive (e + 2)
  else S754_finite s (Z.to_pos M0) (e + 1).
Proof.
  intros Hd He He'. unfold binary_round_aux.
  rewrite shr_fexp_25 by assumption.
  cbv zeta. replace (e + 2) with (e + 1 + 1) by lia.
  apply pack_rounded; try lia.
  pose proof (digits2_bounds m) as Hb. rewrite Hd in Hb.
  assert (Hm : shr_m (shr_1 (shr_record_of_loc (Zpos m) l)) = Zpos m / 2).
  { destruct l as [ | [ | | ]]; destruct m as [m | m | ]; cbn [shr_record_of_loc shr_1 shr_m];
      try (cbn in Hb; lia).
    all: first [ apply Z.div_unique with 1; lia | apply Z.div_unique with 0; lia ]. }
  assert (2 ^ 23 <= Zpos m / 2 < 2 ^ 24).
  { split.
    - apply Z.div_le_lower_bound; lia.
    - apply Z.div_lt_upper_bound; lia. }
  destruct (rne_cases (shr_m (shr_1 (shr_record_of_loc (Zpos m) l)))
              (loc_of_shr_record (shr_1 (shr_record_of_loc (Zpos m) l)))) as [-> | ->];
    rewrite Hm; lia.
Qed.

(** *** Division of two 24-digit mantissas *)

(** The location of the remainder [r] of a division by [B]: exact, or below,
    at, or above the half. *)
Lemma new_location_spec (B r : Z) :
  0 < B -> 0 <= r < B ->
  new_location B r = if r =? 0 then loc_Exact else loc_Inexact (2 * r ?= B).
Proof.
  intros HB Hr. unfold new_location, new_location_even, new_location_odd.
  destruct (Z.even B) eqn:Hev; [ reflexivity | ].
  destruct (r =? 0); [ reflexivity | ].
  assert (Hodd : Z.odd B = true) by (rewrite <- Z.negb_even, Hev; reflexivity).
  apply Z.odd_spec in Hodd. destruct Hodd as [c Hc].
  f_equal.
  destruct (Z.compare_spec (2 * r + 1) B), (Z.compare_spec (2 * r) B);
    try reflexivity; lia.
Qed.

Lemma SFdiv_core_24 (N D : positive) (e1 e2 : Z) :
  Zpos (digits2_pos N) = 24 -> Zpos (digits2_pos D) = 24 ->
  -125 <= e1 - e2 ->
  SFdiv_core_binary 24 128 (Zpos N) e1 (Zpos D) e2 =
  (Zpos N * 2 ^ 24 / Zpos D, e1 - e2 - 24,
   new_location (Zpos D) ((Zpos N * 2 ^ 24) mod Zpos D)).
Proof.
  intros HN HD He. unfold SFdiv_core_binary. cbn [Zdigits2].
  rewrite HN, HD.
  replace (Z.min (fexp 24 128 (24 + e1 - (24 + e2))) (e1 - e2)) with (e1 - e2 - 24)
    by (unfold fexp, emin; lia).
  replace (e1 - e2 - (e1 - e2 - 24)) with 24 by lia.
  cbv iota. rewrite Z.shiftl_mul_pow2 by lia.
  unfold Z.div, Z.modulo.
  destruct (Z.div_eucl (Zpos N * 2 ^ 24) (Zpos D)) as [q r]. reflexivity.
Qed.

(** A mantissa rounded up to 2^24 is renormalised to 2^23 one exponent
    higher. *)
Lemma nearest_even_carry (A B : Z) :
  0 < B ->
  (2 * 2 ^ 24 - 1) * B <= 2 * A <= (2 * 2 ^ 24 + 1) * B ->
  nearest_even A (B * 2) (2 ^ 23).
Proof.
  intros HB [Hlo Hhi]. unfold nearest_even.
  change (2 ^ 24) with 16777216 in *. change (2 ^ 23) with 8388608.
  repeat split; try lia; intros; reflexivity.
Qed.

(** Rounding the quotient [q] with remainder [r] as it stands. *)
Lemma rne_nearest_24 (A B q r : Z) :
  0 < B -> 0 <= r < B -> A = B * q + r -> 2 ^ 23 <= q ->
  let M0 := round_nearest_even q (if r =? 0 then loc_Exact else loc_Inexact (2 * r ?= B)) in
  (2 * M0 - 1) * B <= 2 * A <= (2 * M0 + 1) * B /\
  (2 * A = (2 * M0 + 1) * B -> Z.even M0 = true) /\
  (2 * A = (2 * M0 - 1) * B -> Z.even M0 = true) /\
  q <= M0 <= q + 1 /\
  (M0 = q -> q * B <= A).
Proof.
  intros HB Hr HA Hq. cbv zeta.
  destruct (Z.eqb_spec r 0) as [Hr0 | Hr0].
  - cbn [round_nearest_even]. subst r. repeat split; try lia.
  - destruct (Z.compare_spec (2 * r) B) as [Heq | Hlt | Hgt]; cbn [round_nearest_even].
    + destruct (Z.even q) eqn:Hev.
      * repeat split; try lia. intros _. exact Hev.
      * repeat split; try lia. intros _.
        rewrite Z.even_add, Hev. reflexivity.
    + repeat split; try lia.
    + repeat split; try lia.
Qed.

(** Rounding the quotient after its last bit has been shifted out. *)
Lemma rne_nearest_25 (A B r : Z) (p : positive) :
  0 < B -> 0 <= r < B -> A = B * Zpos p + r -> 2 ^ 24 <= Zpos p ->
  let mrs := shr_1 (shr_record_of_loc (Zpos p)
               (if r =? 0 then loc_Exact else loc_Inexact (2 * r ?= B))) in
  let M0 := round_nearest_even (shr_m mrs) (loc_of_shr_record mrs) in
  (2 * M0 - 1) * (B * 2) <= 2 * A <= (2 * M0 + 1) * (B * 2) /\
  (2 * A = (2 * M0 + 1) * (B * 2) -> Z.even M0 = true) /\
  (2 * A = (2 * M0 - 1) * (B * 2) -> Z.even M0 = true) /\
  Zpos p / 2 <= M0 <= Zpos p / 2 + 1 /\
  (M0 = Zpos p / 2 -> (Zpos p / 2) * (B * 2) <= A).
Proof.
  intros HB Hr HA Hq. cbv zeta.
  destruct p as [p | p | ]; [ | | cbn in Hq; lia ].
  - (* odd quotient: the shifted-out bit is 1 *)
    assert (Hh : Zpos p~1 / 2 = Zpos p)
      by (symmetry; apply Z.div_unique with 1; lia).
    rewrite Hh. rewrite Pos2Z.inj_xI in HA.
    destruct (Z.eqb_spec r 0) as [Hr0 | Hr0].
    + cbn [shr_record_of_loc shr_1 shr_m loc_of_shr_record orb round_nearest_even].
      destruct (Z.even (Zpos p)) eqn:Hev.
      * repeat split; try lia. intros _. exact Hev.
      * repeat split; try lia. intros _. rewrite Z.even_add, Hev. reflexivity.
    + destruct (2 * r ?= B);
        cbn [shr_record_of_loc shr_1 shr_m loc_of_shr_record orb round_nearest_even];
        repeat split; try lia.
  - (* even quotient: the shifted-out bit is 0 *)
    assert (Hh : Zpos p~0 / 2 = Zpos p)
      by (symmetry; apply Z.div_unique with 0; lia).
    rewrite Hh. rewrite Pos2Z.inj_xO in HA.
    destruct (Z.eqb_spec r 0) as [Hr0 | Hr0].
    + cbn [shr_record_of_loc shr_1 shr_m loc_of_shr_record orb round_nearest_even].
      repeat split; try lia.
    + destruct (2 * r ?= B);
        cbn [shr_record_of_loc shr_1 shr_m loc_of_shr_record orb round_nearest_even];
        repeat split; try lia.
Qed.

(** The quotient of two normal numbers with 24-digit mantissas [N] and [D]
    is [N * 2^24 / D] rounded to 24 digits, [k] counting the binary places
    dropped. *)
Lemma div_canonical (N D : positive) (e1 e2 : Z) :
  Zpos (digits2_pos N) = 24 -> Zpos (digits2_pos D) = 24 ->
  -100 <= e1 - e2 <= 100 ->
  exists (M : positive) (k : Z),
    SFdiv 24 128 (S754_finite false N e1) (S754_finite false D e2) =
      S754_finite false M (e1 - e2 - 24 + k) /\
    0 <= k <= 2 /\
    2 ^ 23 <= Zpos M < 2 ^ 24 /\
    nearest_even (Zpos N * 2 ^ 24) (Zpos D * 2 ^ k) (Zpos M).
Proof.
  intros HN HD He.
  pose proof (digits2_bounds N) as BN. rewrite HN in BN.
  pose proof (digits2_bounds D) as BD. rewrite HD in BD.
  change (2 ^ (24 - 1)) with (2 ^ 23) in *.
  unfold SFdiv. rewrite SFdiv_core_24 by (try assumption; lia).
  cbn [xorb].
  set (A := Zpos N * 2 ^ 24). set (B := Zpos D).
  assert (HB : 0 < B) by (unfold B; lia).
  pose proof (Z.mod_pos_bound A B HB) as Hr.
  pose proof (Z.div_mod A B ltac:(lia)) as HA.
  rewrite (new_location_spec B (A mod B) HB Hr).
  assert (Hq : 2 ^ 23 <= A / B < 2 ^ 25).
  { split.
    - apply Z.div_le_lower_bound; [ exact HB | ]. unfold A, B.
      change (2 ^ 24) with 16777216 in *. change (2 ^ 23) with 8388608 in *. nia.
    - apply Z.div_lt_upper_bound; [ exact HB | ]. unfold A, B.
      change (2 ^ 24) with 16777216 in *. change (2 ^ 23) with 8388608 in *.
      change (2 ^ 25) with 33554432. nia. }
  destruct (A / B) as [ | q | q] eqn:Eq; [ cbn in Hq; lia | | cbn in Hq; lia ].
  destruct (Z.lt_ge_cases (Zpos q) (2 ^ 24)) as [Hlt | Hge].
  - (* quotient of 24 digits *)
    rewrite binary_round_aux_24; [ | apply digits2_unique; lia | lia | lia ].
    cbv zeta.
    destruct (rne_nearest_24 A B (Zpos q) (A mod B) HB Hr HA ltac:(lia))
      as (Hs & Hu & Hl & Hrange & Hfloor).
    set (M0 := round_nearest_even _ _) in *.
    destruct (Z.eqb_spec M0 (2 ^ 24)) as [E | E].
    + exists (2 ^ 23)%positive, 1. split; [ f_equal | ].
      split; [ lia | ]. split; [ cbn; lia | ].
      change (Zpos (2 ^ 23)) with (2 ^ 23). change (2 ^ 1) with 2.
      apply nearest_even_carry; [ exact HB | ]. rewrite E in Hs. exact Hs.
    + exists (Z.to_pos M0), 0. rewrite Z2Pos.id by lia.
      split; [ f_equal; lia | ].
      split; [ lia | ]. split; [ lia | ].
      change (2 ^ 0) with 1. rewrite Z.mul_1_r.
      unfold nearest_even. repeat split; try tauto; try lia.
  - (* quotient of 25 digits *)
    rewrite binary_round_aux_25; [ | apply digits2_unique; lia | lia | lia ].
    cbv zeta.
    destruct (rne_nearest_25 A B (A mod B) q HB Hr HA Hge)
      as (Hs & Hu & Hl & Hrange & Hfloor).
    set (M0 := round_nearest_even _ _) in *.
    assert (Hh : 2 ^ 23 <= Zpos q / 2 < 2 ^ 24).
    { split.
      - apply Z.div_le_lower_bound; lia.
      - apply Z.div_lt_upper_bound; lia. }
    destruct (Z.eqb_spec M0 (2 ^ 24)) as [E | E].
    + exists (2 ^ 23)%positive, 2. split; [ f_equal | ].
      split; [ lia | ]. split; [ cbn; lia | ].
      change (Zpos (2 ^ 23)) with (2 ^ 23).
      replace (B * 2 ^ 2) with (B * 2 * 2) by (change (2 ^ 2) with 4; lia).
      apply nearest_even_carry; [ lia | ]. rewrite E in Hs. exact Hs.
    + exists (Z.to_pos M0), 1. rewrite Z2Pos.id by lia.
      split; [ f_equal | ].
      split; [ lia | ]. split; [ lia | ].
      change (2 ^ 1) with 2.
      unfold nearest_even. repeat split; try tauto; try lia.
Qed.


(** *** Conversion of integers *)

(** Below 2^24 the conversion is exact: the integer shifted left to 24
    digits. *)
Lemma of_Z_small (n : Z) :
  0 < n < 2 ^ 24 ->
  exists (m : positive) (a : Z),
    F32.of_Z n = S754_finite false m (- a) /\
    0 <= a <= 23 /\
    Zpos m = n * 2 ^ a /\
    Zpos (digits2_pos m) = 24.
Proof.
  intros Hn. destruct n as [ | p | p]; try lia.
  pose proof (digits2_bounds p) as Hb.
  set (d := Zpos (digits2_pos p)) in *.
  assert (Hd : 1 <= d <= 24).
  { split; [ unfold d; lia | ].
    assert (d - 1 < 24); [ | lia ].
    apply (Z.pow_lt_mono_r_iff 2); lia. }
  assert (Hscale : 2 ^ 23 <= Zpos p * 2 ^ (24 - d) < 2 ^ 24).
  { assert (E23 : 2 ^ 23 = 2 ^ (d - 1) * 2 ^ (24 - d))
      by (rewrite <- Z.pow_add_r by lia; f_equal; lia).
    assert (E24 : 2 ^ 24 = 2 ^ d * 2 ^ (24 - d))
      by (rewrite <- Z.pow_add_r by lia; f_equal; lia).
    assert (0 < 2 ^ (24 - d)) by (apply Z.pow_pos_nonneg; lia).
    rewrite E23, E24.
    split; [ apply Z.mul_le_mono_nonneg_r | apply Z.mul_lt_mono_pos_r ]; lia. }
  unfold F32.of_Z, F32.prec, F32.emax, binary_normalize, binary_round.
  fold d. rewrite Z.add_0_r.
  replace (fexp 24 128 d) with (d - 24) by (unfold fexp, emin; lia).
  unfold shl_align. rewrite Z.sub_0_r.
  destruct (d - 24) as [ | k | k] eqn:Ek; try lia.
  - exists p, 0. assert (d = 24) by lia.
    rewrite binary_round_aux_24 by (try lia; fold d; lia).
    cbn [round_nearest_even]. cbv zeta.
    destruct (Z.eqb_spec (Zpos p) (2 ^ 24)) as [E | E]; [ lia | ].
    cbn [Z.to_pos Z.opp]. repeat split; try lia.
  - assert (Hk : Zpos k = 24 - d) by lia.
    assert (Hm : Zpos (Pos.iter xO p k) = Zpos p * 2 ^ (24 - d))
      by (rewrite iter_xO_mul, Hk; reflexivity).
    assert (Hdm : Zpos (digits2_pos (Pos.iter xO p k)) = 24)
      by (apply digits2_unique; rewrite Hm; exact Hscale).
    exists (Pos.iter xO p k), (24 - d).
    rewrite binary_round_aux_24 by (try exact Hdm; lia).
    cbn [round_nearest_even]. cbv zeta.
    destruct (Z.eqb_spec (Zpos (Pos.iter xO p k)) (2 ^ 24)) as [E | E]; [ lia | ].
    cbn [Z.to_pos]. repeat split; try lia. f_equal. lia.
Qed.

Lemma nearest_even_scale (A B M c : Z) :
  0 < c -> nearest_even A B M -> nearest_even (A * c) (B * c) M.
Proof.
  intros Hc ([Hs1 Hs2] & Hu & Hl & Hb). unfold nearest_even.
  assert (R : forall x y, x * y * c = x * (y * c)) by (intros; ring).
  assert (R2 : forall x y, x * y * c = x * (y * c)) by (intros; ring).
  split; [ split | split; [ | split ] ].
  - rewrite <- !R. apply Z.mul_le_mono_nonneg_r; lia.
  - rewrite <- !R. apply Z.mul_le_mono_nonneg_r; lia.
  - intros E. apply Hu. rewrite <- !R in E.
    apply (Z.mul_reg_r _ _ c); [ lia | exact E ].
  - intros E. apply Hl. rewrite <- !R in E.
    apply (Z.mul_reg_r _ _ c); [ lia | exact E ].
  - intros E. rewrite <- !R. apply Z.mul_le_mono_nonneg_r; [ lia | auto ].
Qed.

(** *** Quotients of integers below 2^24 *)

(** The quotient is [M * 2^E] with [M] the nearest-even rounding of
    [n / d / 2^E], stated with denominators cleared by the factor 2^48. *)
Lemma quotient_rounded (n d : Z) :
  0 < n < 2 ^ 24 -> 0 < d < 2 ^ 24 ->
  exists (M : positive) (E : Z),
    F32.div (F32.of_Z n) (F32.of_Z d) = S754_finite false M E /\
    -47 <= E <= 1 /\
    2 ^ 23 <= Zpos M < 2 ^ 24 /\
    nearest_even (n * 2 ^ 48) (d * 2 ^ (E + 48)) (Zpos M).
Proof.
  intros Hn Hd.
  destruct (of_Z_small n Hn) as (m1 & a & E1 & Ha & Hm1 & D1).
  destruct (of_Z_small d Hd) as (m2 & b & E2 & Hb & Hm2 & D2).
  destruct (div_canonical m1 m2 (- a) (- b) D1 D2 ltac:(lia))
    as (M & k & ER & Hk & HM & HN).
  exists M, (- a - - b - 24 + k).
  rewrite E1, E2. split; [ exact ER | ].
  split; [ lia | ]. split; [ exact HM | ].
  apply (nearest_even_scale _ _ _ (2 ^ (24 - a))) in HN;
    [ | apply Z.pow_pos_nonneg; lia ].
  replace (n * 2 ^ 48) with (Zpos m1 * 2 ^ 24 * 2 ^ (24 - a)).
  2:{ rewrite Hm1, <- !Z.mul_assoc, <- !Z.pow_add_r by lia.
      do 2 f_equal. lia. }
  replace (d * 2 ^ (- a - - b - 24 + k + 48)) with (Zpos m2 * 2 ^ k * 2 ^ (24 - a)).
  2:{ rewrite Hm2, <- !Z.mul_assoc, <- !Z.pow_add_r by lia.
      do 2 f_equal. lia. }
  exact HN.
Qed.

(** Rounding to nearest even is monotone: of two exact quotients in order,
    the first does not round to a longer scale than the second, and at equal
    scales not to a larger mantissa. *)
Lemma nearest_even_mono (n1 d1 n2 d2 T P1 P2 M1 M2 : Z) :
  0 < T -> 0 < d1 -> 0 < d2 -> 0 < P1 -> 0 < P2 ->
  2 ^ 23 <= M1 < 2 ^ 24 -> 2 ^ 23 <= M2 < 2 ^ 24 ->
  nearest_even (n1 * T) (d1 * P1) M1 ->
  nearest_even (n2 * T) (d2 * P2) M2 ->
  n1 * d2 <= n2 * d1 ->
  (P1 = P2 -> M1 <= M2) /\ ~ 2 * P2 <= P1.
Proof.
  intros HT Hd1 Hd2 HP1 HP2 HM1 HM2
    ([L1 U1] & TU1 & TL1 & B1) ([L2 U2] & TU2 & TL2 & B2) Hle.
  change (2 ^ 23) with 8388608 in *. change (2 ^ 24) with 16777216 in *.
  (* the chain  lower bound of x1 <= x1 <= x2 <= upper bound of x2,
     cleared of denominators *)
  assert (C1 : (2 * M1 - 1) * (d1 * P1) * d2 <= 2 * (n1 * T) * d2)
    by (apply Z.mul_le_mono_nonneg_r; lia).
  assert (C2 : 2 * T * (n1 * d2) <= 2 * T * (n2 * d1))
    by (apply Z.mul_le_mono_nonneg_l; lia).
  assert (C3 : 2 * (n2 * T) * d1 <= (2 * M2 + 1) * (d2 * P2) * d1)
    by (apply Z.mul_le_mono_nonneg_r; lia).
  assert (K1 : (2 * M1 - 1) * P1 * (d1 * d2) <= (2 * M2 + 1) * P2 * (d1 * d2)) by lia.
  assert (HX : 0 < d1 * d2) by (apply Z.mul_pos_pos; lia).
  apply Z.mul_le_mono_pos_r in K1; [ | exact HX ].
  (* equality in the chain forces both ties *)
  assert (Tie : (2 * M1 - 1) * P1 = (2 * M2 + 1) * P2 ->
                Z.even M1 = true /\ Z.even M2 = true).
  { intros E.
    assert (E' : (2 * M1 - 1) * P1 * (d1 * d2) = (2 * M2 + 1) * P2 * (d1 * d2))
      by (rewrite E; reflexivity).
    split.
    - apply TL1. apply (Z.mul_reg_r _ _ d2); lia.
    - apply TU2. apply (Z.mul_reg_r _ _ d1); lia. }
  split.
  - intros EP. subst P2.
    assert (2 * M1 - 1 <= 2 * M2 + 1)
      by (apply (Z.mul_le_mono_pos_r _ _ P1); assumption).
    destruct (Z.le_gt_cases M1 M2) as [ | Hgt]; [ assumption | exfalso ].
    assert (EM : M1 = M2 + 1) by lia.
    destruct Tie as [Ev1 Ev2]; [ subst M1; ring | ].
    subst M1. rewrite Z.even_add, Ev2 in Ev1. discriminate Ev1.
  - intros H2.
    assert (S1 : (2 * M1 - 1) * (2 * P2) <= (2 * M1 - 1) * P1)
      by (apply Z.mul_le_mono_nonneg_l; lia).
    assert (S2 : (2 * (2 * M1 - 1)) * P2 <= (2 * M2 + 1) * P2) by lia.
    apply Z.mul_le_mono_pos_r in S2; [ | exact HP2 ].
    assert (EM1 : M1 = 8388608) by lia.
    specialize (B1 EM1).
    assert (C4 : (4 * M1 - 1) * (d1 * P1) * d2 <= 4 * (n1 * T) * d2)
      by (apply Z.mul_le_mono_nonneg_r; lia).
    assert (K2 : (4 * M1 - 1) * P1 * (d1 * d2) <= (4 * M2 + 2) * P2 * (d1 * d2)) by lia.
    pose proof K2 as K2'.
    apply Z.mul_le_mono_pos_r in K2'; [ | exact HX ].
    subst M1.
    assert (S3 : 33554431 * (2 * P2) <= 33554431 * P1)
      by (apply Z.mul_le_mono_nonneg_l; lia).
    assert (S4 : 67108862 * P2 <= (4 * M2 + 2) * P2) by lia.
    apply Z.mul_le_mono_pos_r in S4; [ | exact HP2 ].
    assert (EM2 : M2 = 16777215) by lia.
    subst M2.
    assert (EP : P1 = 2 * P2) by lia.
    assert (Ev2 : Z.even 16777215 = true).
    { apply TU2. apply (Z.mul_reg_r _ _ d1); [ lia | ].
      subst P1. lia. }
    discriminate Ev2.
Qed.

Lemma div_of_Z_mono (n1 d1 n2 d2 : Z) :
  0 <= n1 < 2 ^ 24 -> 0 <= n2 < 2 ^ 24 ->
  0 < d1 < 2 ^ 24 -> 0 < d2 < 2 ^ 24 ->
  n1 * d2 <= n2 * d1 ->
  F32.leb (F32.div (F32.of_Z n1) (F32.of_Z d1))
          (F32.div (F32.of_Z n2) (F32.of_Z d2)) = true.
Proof.
  intros Hn1 Hn2 Hd1 Hd2 Hle.
  destruct (Z.eq_dec n1 0) as [Z1 | NZ1].
  - subst n1.
    destruct (of_Z_small d1 Hd1) as (m1 & a1 & -> & _).
    destruct (Z.eq_dec n2 0) as [Z2 | NZ2].
    + subst n2. destruct (of_Z_small d2 Hd2) as (m2 & a2 & -> & _). reflexivity.
    + destruct (quotient_rounded n2 d2 ltac:(lia) Hd2) as (M2 & E2 & -> & _).
      reflexivity.
  - assert (Hp2 : 0 < n2) by nia.
    destruct (quotient_rounded n1 d1 ltac:(lia) Hd1) as (M1 & E1 & -> & HE1 & HM1 & R1).
    destruct (quotient_rounded n2 d2 ltac:(lia) Hd2) as (M2 & E2 & -> & HE2 & HM2 & R2).
    destruct (nearest_even_mono n1 d1 n2 d2 (2 ^ 48) (2 ^ (E1 + 48)) (2 ^ (E2 + 48))
                (Zpos M1) (Zpos M2)) as [Heq Hgt]; try assumption; try lia;
      try (apply Z.pow_pos_nonneg; lia).
    unfold F32.leb, SFleb, SFcompare.
    destruct (Z.compare_spec E1 E2) as [EE | ELt | EGt].
    + subst E2. specialize (Heq eq_refl).
      change (Pos.compare_cont Eq M1 M2) with (Pos.compare M1 M2).
      destruct (Pos.compare_spec M1 M2); try reflexivity. lia.
    + reflexivity.
    + exfalso. apply Hgt.
      replace (2 * 2 ^ (E2 + 48)) with (2 ^ (E2 + 49))
        by (replace (E2 + 49) with (Z.succ (E2 + 48)) by lia;
            rewrite Z.pow_succ_r by lia; reflexivity).
      apply Z.pow_le_mono_r; lia.
Qed.

(** *** Conversion of integers from 2^24 up *)

Lemma shr_m_shr_1 (r : shr_record) :
  0 <= shr_m r -> shr_m (shr_1 r) = shr_m r / 2.
Proof.
  destruct r as [m rb sb]. cbn [shr_m]. intros Hm.
  destruct m as [ | [p | p | ] | p]; cbn [shr_1 shr_m]; try lia.
  - reflexivity.
  - apply Z.div_unique with 1; lia.
  - apply Z.div_unique with 0; lia.
  - reflexivity.
Qed.

Lemma shr_m_iter (k : positive) :
  forall r, 0 <= shr_m r ->
  shr_m (iter_pos shr_1 k r) = shr_m r / 2 ^ Zpos k.
Proof.
  induction k as [k IH | k IH | ]; intros r Hr; cbn [iter_pos].
  - assert (H1 : 0 <= shr_m (shr_1 r))
      by (rewrite shr_m_shr_1 by assumption; apply Z.div_pos; lia).
    assert (H2 : 0 <= shr_m (iter_pos shr_1 k (shr_1 r)))
      by (rewrite IH by assumption; apply Z.div_pos; [ lia | apply Z.pow_pos_nonneg; lia ]).
    assert (E : 2 ^ Zpos k~1 = 2 * (2 ^ Zpos k * 2 ^ Zpos k)).
    { rewrite <- Z.pow_add_r, <- Z.pow_succ_r by lia. f_equal. lia. }
    rewrite IH, IH, shr_m_shr_1 by assumption.
    rewrite !Z.div_div by (try apply Z.pow_pos_nonneg; lia).
    rewrite E. reflexivity.
  - assert (H2 : 0 <= shr_m (iter_pos shr_1 k r))
      by (rewrite IH by assumption; apply Z.div_pos; [ lia | apply Z.pow_pos_nonneg; lia ]).
    assert (E : 2 ^ Zpos k~0 = 2 ^ Zpos k * 2 ^ Zpos k).
    { rewrite <- Z.pow_add_r by lia. f_equal. lia. }
    rewrite IH, IH by assumption.
    rewrite !Z.div_div by (try apply Z.pow_pos_nonneg; lia).
    rewrite E. reflexivity.
  - apply shr_m_shr_1. assumption.
Qed.

Lemma of_Z_large (n : Z) :
  2 ^ 24 <= n < 2 ^ 32 -> exists m e, F32.of_Z n = S754_finite false m e.
Proof.
  intros Hn. destruct n as [ | p | p]; try lia.
  pose proof (digits2_bounds p) as Hb.
  set (d := Zpos (digits2_pos p)) in *.
  assert (Hd : 25 <= d <= 32).
  { split.
    - assert (24 < d); [ | lia ]. apply (Z.pow_lt_mono_r_iff 2); lia.
    - assert (d - 1 < 32); [ | lia ]. apply (Z.pow_lt_mono_r_iff 2); lia. }
  unfold F32.of_Z, F32.prec, F32.emax, binary_normalize, binary_round. fold d. rewrite Z.add_0_r.
  replace (fexp 24 128 d) with (d - 24) by (unfold fexp, emin; lia).
  unfold shl_align. rewrite Z.sub_0_r.
  destruct (d - 24) as [ | k | k] eqn:Ek; try lia.
  unfold binary_round_aux.
  assert (Es : shr_fexp 24 128 (Zpos p) 0 loc_Exact =
               (iter_pos shr_1 k (shr_record_of_loc (Zpos p) loc_Exact), 0 + Zpos k)).
  { unfold shr_fexp. cbn [Zdigits2]. fold d. rewrite Z.add_0_r.
    replace (fexp 24 128 d - 0) with (Zpos k) by (unfold fexp, emin; lia).
    reflexivity. }
  rewrite Es.
  set (mrs := iter_pos shr_1 k (shr_record_of_loc (Zpos p) loc_Exact)).
  assert (Hm : shr_m mrs = Zpos p / 2 ^ Zpos k).
  { unfold mrs. rewrite shr_m_iter; cbn [shr_record_of_loc shr_m]; [ reflexivity | lia ]. }
  assert (Hq : 2 ^ 23 <= shr_m mrs < 2 ^ 24).
  { rewrite Hm.
    assert (0 < 2 ^ Zpos k) by (apply Z.pow_pos_nonneg; lia).
    assert (E1 : 2 ^ (d - 1) = 2 ^ 23 * 2 ^ Zpos k)
      by (rewrite <- Z.pow_add_r by lia; f_equal; lia).
    assert (E2 : 2 ^ d = 2 ^ 24 * 2 ^ Zpos k)
      by (rewrite <- Z.pow_add_r by lia; f_equal; lia).
    split.
    - apply Z.div_le_lower_bound; lia.
    - apply Z.div_lt_upper_bound; lia. }
  set (M0 := round_nearest_even (shr_m mrs) (loc_of_shr_record mrs)).
  assert (HM0 : 2 ^ 23 <= M0 <= 2 ^ 24).
  { unfold M0. destruct (rne_cases (shr_m mrs) (loc_of_shr_record mrs)) as [-> | ->]; lia. }
  rewrite (pack_rounded false M0 (0 + Zpos k)) by (try assumption; lia).
  destruct (M0 =? 2 ^ 24); eauto.
Qed.

Lemma of_Z_pos_finite (n : Z) :
  0 < n < 2 ^ 32 -> exists m e, F32.of_Z n = S754_finite false m e.
Proof.
  intros Hn. destruct (Z.lt_ge_cases n (2 ^ 24)).
  - destruct (of_Z_small n ltac:(lia)) as (m & a & E & _). eauto.
  - apply of_Z_large. lia.
Qed.

(** *** Comparisons *)

Lemma SFltb_asym (a b : float) : F32.ltb a b = true -> F32.ltb b a = false.
Proof.
  unfold F32.ltb, SFltb.
  destruct a as [sa | sa | | sa ma ea], b as [sb | sb | | sb mb eb];
    cbn; try destruct sa; try destruct sb; cbn; try congruence;
    change (Pos.compare_cont Eq ma mb) with (Pos.compare ma mb);
    change (Pos.compare_cont Eq mb ma) with (Pos.compare mb ma);
    rewrite (Z.compare_antisym ea eb), (Pos.compare_antisym ma mb);
    destruct (ea ?= eb); cbn; try congruence;
    destruct (Pos.compare ma mb); cbn; congruence.
Qed.

Lemma SFltb_zero_sign (d : float) (s : bool) :
  F32.ltb d (S754_zero s) = F32.ltb d F32.zero.
Proof. destruct d as [sd | sd | | sd md ed]; reflexivity. Qed.

Lemma div_zero_num (y : float) :
  F32.div F32.zero y = S754_nan \/ exists s, F32.div F32.zero y = S754_zero s.
Proof.
  unfold F32.div, F32.zero.
  destruct y as [sy | sy | | sy my ey]; cbn; eauto.
Qed.

(** The ratio of a period whose on-time starts at the current time: the
    numerator is 0, so the ratio is a zero or, when the period starts now
    too, NaN.  It never exceeds a desired ratio that is not negative. *)
Lemma ratio_at_on_start (c p : Z) (d : float) :
  F32.ltb d F32.zero = false ->
  F32.gtb (calcPeriodRatio c c p) d = false.
Proof.
  intros Hd. unfold calcPeriodRatio.
  assert (E : forall x, F32.of_Z (AVR.usub x x) = F32.zero).
  { intros x. unfold AVR.usub. rewrite Z.sub_diag. reflexivity. }
  assert (G : forall y, F32.gtb (F32.div F32.zero y) d = false).
  { intros y. unfold F32.gtb.
    destruct (div_zero_num y) as [H | [s H]]; rewrite H.
    - destruct d; reflexivity.
    - rewrite SFltb_zero_sign. exact Hd. }
  destruct (p >? c); rewrite E; apply G.
Qed.

End Binary32.

Import Binary32.

(** ** C3 *)

(** The two operands of the division in [calcPeriodRatio]. *)
Lemma calcPeriodRatio_quotient (currentT onT periodT : Z) :
  calcPeriodRatio currentT onT periodT =
  F32.div (F32.of_Z (periodNumerator currentT onT periodT))
          (F32.of_Z (periodDenominator currentT periodT)).
Proof. reflexivity. Qed.

Lemma usub_range (a b : Z) : 0 <= AVR.usub a b < 2 ^ 32.
Proof. unfold AVR.usub. apply Z.mod_pos_bound. lia. Qed.

(** With [currentT = periodT] the denominator is 0.  The call made at
    start-up, where [onT] is that time too, yields NaN; an [onT] elsewhere
    yields +infinity. *)
Lemma zero_denominator_counterexample :
  periodDenominator 100 100 <= 0 /\
  calcPeriodRatio 100 100 100 = F32.nan /\
  calcPeriodRatio 100 100 100 <> F32.zero /\
  calcPeriodRatio 100 86000 100 = F32.pinf.
Proof.
  repeat split; vm_compute; discriminate.
Qed.

(** C3, as the sketch behaves: [calcPeriodRatio] has no guard on its
    denominator.  The subtraction is unsigned, so the denominator is never
    negative; when it is 0 the float division by zero goes through and the
    value returned is NaN if the numerator is 0 too and +infinity otherwise.
    It is never 0. *)
Theorem zero_denominator_not_clamped (currentT onT periodT : Z) :
  periodDenominator currentT periodT <= 0 ->
  (periodNumerator currentT onT periodT = 0 ->
   calcPeriodRatio currentT onT periodT = F32.nan) /\
  (periodNumerator currentT onT periodT <> 0 ->
   calcPeriodRatio currentT onT periodT = F32.pinf) /\
  F32.is_zero (calcPeriodRatio currentT onT periodT) = false.
Proof.
  unfold periodDenominator, periodNumerator, calcPeriodRatio. cbv zeta.
  set (c := if periodT >? currentT then AVR.uadd currentT 86400 else currentT).
  set (o := if periodT >? onT then AVR.uadd onT 86400 else onT).
  intros Hden.
  pose proof (usub_range c periodT) as Hd.
  pose proof (usub_range c o) as Hn.
  assert (Ed : AVR.usub c periodT = 0) by lia. rewrite Ed.
  destruct (Z.eq_dec (AVR.usub c o) 0) as [En | En].
  - rewrite En. repeat split; try reflexivity. intros H. lia.
  - destruct (of_Z_pos_finite (AVR.usub c o) ltac:(lia)) as (m & e & ->).
    repeat split; try reflexivity. intros H. lia.
Qed.

Lemma zero_denominator_witness :
  (periodNumerator 100 100 100 = 0 -> calcPeriodRatio 100 100 100 = F32.nan) /\
  (periodNumerator 100 100 100 <> 0 -> calcPeriodRatio 100 100 100 = F32.pinf) /\
  F32.is_zero (calcPeriodRatio 100 100 100) = false.
Proof.
  apply (zero_denominator_not_clamped 100 100 100). vm_compute. discriminate.
Defined.

(** ** C4 *)

(** C4: whenever [periodT > currentT], 86400 is added to [currentT] before
    the two subtractions, and whenever [periodT > onT], 86400 is added to
    [onT]; the ratio is the quotient of the differences of the stepped
    times.  For 32-bit times within one day of [periodT], the call therefore
    returns what the call on the stepped times returns: at
    [periodT = 86000], [onT = 86000], [currentT = 100] that is the call at
    [currentT = 86500]. *)
Theorem calcPeriodRatio_day_wrap (currentT onT periodT : Z) :
  calcPeriodRatio currentT onT periodT =
    F32.div
      (F32.of_Z (AVR.usub
         (if periodT >? currentT then AVR.uadd currentT 86400 else currentT)
         (if periodT >? onT then AVR.uadd onT 86400 else onT)))
      (F32.of_Z (AVR.usub
         (if periodT >? currentT then AVR.uadd currentT 86400 else currentT)
         periodT)) /\
  (let currentT' := if periodT >? currentT then currentT + 86400 else currentT in
   let onT' := if periodT >? onT then onT + 86400 else onT in
   0 <= currentT -> 0 <= onT -> 0 <= periodT ->
   currentT' < 2 ^ 32 -> onT' < 2 ^ 32 ->
   periodT <= currentT' -> periodT <= onT' ->
   calcPeriodRatio currentT onT periodT = calcPeriodRatio currentT' onT' periodT /\
   calcPeriodRatio currentT onT periodT =
     F32.div (F32.of_Z (AVR.usub currentT' onT')) (F32.of_Z (currentT' - periodT))).
Proof.
  split; [ reflexivity | ].
  cbv zeta. intros Hc Ho Hp Hc' Ho' Hpc Hpo.
  unfold calcPeriodRatio.
  set (c' := if periodT >? currentT then currentT + 86400 else currentT) in *.
  set (o' := if periodT >? onT then onT + 86400 else onT) in *.
  assert (Ec : (if periodT >? currentT then AVR.uadd currentT 86400 else currentT) = c').
  { unfold c' in *. destruct (periodT >? currentT); [ | reflexivity ].
    unfold AVR.uadd. apply Z.mod_small. lia. }
  assert (Eo : (if periodT >? onT then AVR.uadd onT 86400 else onT) = o').
  { unfold o' in *. destruct (periodT >? onT); [ | reflexivity ].
    unfold AVR.uadd. apply Z.mod_small. lia. }
  rewrite Ec, Eo.
  assert (Gc : (periodT >? c') = false) by (rewrite Z.gtb_ltb; apply Z.ltb_ge; lia).
  assert (Go : (periodT >? o') = false) by (rewrite Z.gtb_ltb; apply Z.ltb_ge; lia).
  rewrite Gc, Go. split; [ reflexivity | ].
  do 2 f_equal. unfold AVR.usub. apply Z.mod_small. lia.
Qed.

Lemma calcPeriodRatio_day_wrap_witness :
  calcPeriodRatio 100 86000 86000 = calcPeriodRatio 86500 86000 86000 /\
  calcPeriodRatio 100 86000 86000 =
    F32.div (F32.of_Z (AVR.usub 86500 86000)) (F32.of_Z (86500 - 86000)).
Proof.
  destruct (calcPeriodRatio_day_wrap 100 86000 86000) as [_ H].
  apply H; cbn; lia.
Defined.

(** ** C6 *)

(** Five pairs [now1 <= now2] at which the ratio decreases or does not
    compare.  (1) [now1] before the period start is stepped a day ahead and
    yields a larger ratio than the later [now2].  (2) At [now1 = periodStart]
    the ratio is NaN, which compares false with everything, itself included.
    (3) Past 2^24 seconds the conversions to [float] round:
    2^24 / (2^24 + 1) becomes 1 and the next quotient stays below 1.
    (4) An on-time after [now1] and (5) an on-time before the period start
    make the unsigned numerator wrap around. *)
Lemma ratio_monotone_counterexample :
  (50 <= 300 /\
   F32.geb (calcPeriodRatio 300 200 100) (calcPeriodRatio 50 200 100) = false) /\
  (100 <= 100 /\
   F32.geb (calcPeriodRatio 100 100 100) (calcPeriodRatio 100 100 100) = false) /\
  (1470000000 + 2 ^ 24 + 1 <= 1470000000 + 2 ^ 24 + 2 /\
   F32.geb (calcPeriodRatio (1470000000 + 2 ^ 24 + 2) 1470000001 1470000000)
           (calcPeriodRatio (1470000000 + 2 ^ 24 + 1) 1470000001 1470000000) = false) /\
  (200 <= 250 /\
   F32.geb (calcPeriodRatio 250 300 100) (calcPeriodRatio 200 300 100) = false) /\
  (200 <= 300 /\
   F32.geb (calcPeriodRatio 300 50 100) (calcPeriodRatio 200 50 100) = false).
Proof.
  repeat split; try lia; vm_compute; reflexivity.
Qed.

(** C6, as the sketch behaves: with [periodStart <= onStart <= now1 <= now2],
    [periodStart < now1] and less than 2^24 seconds between [periodStart] and
    [now2], the ratio at [now2] is at least the ratio at [now1].  Within
    these bounds no time is stepped a day ahead, both differences convert to
    [float] exactly and the one rounding of the division is monotone. *)
Theorem ratio_monotone (onStart periodStart now1 now2 : Z) :
  0 <= periodStart ->
  periodStart <= onStart ->
  onStart <= now1 ->
  periodStart < now1 ->
  now1 <= now2 ->
  now2 - periodStart < 2 ^ 24 ->
  now2 < 2 ^ 32 ->
  F32.geb (calcPeriodRatio now2 onStart periodStart)
          (calcPeriodRatio now1 onStart periodStart) = true.
Proof.
  intros Hp Hpo Hon Hpn Hle Hspan Hmax.
  unfold F32.geb, calcPeriodRatio.
  assert (G : forall t, periodStart <= t -> (periodStart >? t) = false)
    by (intros t Ht; rewrite Z.gtb_ltb; apply Z.ltb_ge; exact Ht).
  rewrite (G now1), (G now2), (G onStart) by lia.
  assert (U : forall a b, 0 <= b <= a -> a < 2 ^ 32 -> AVR.usub a b = a - b)
    by (intros a b Hab Ha; unfold AVR.usub; apply Z.mod_small; lia).
  rewrite !U by lia.
  apply div_of_Z_mono; try lia.
  nia.
Qed.

Lemma ratio_monotone_witness :
  F32.geb (calcPeriodRatio 1000 900 800) (calcPeriodRatio 950 900 800) = true.
Proof.
  apply (ratio_monotone 900 800 950 1000); lia.
Defined.

(** ** C5 *)

Lemma int16_small (z : Z) : AVR.int_range z -> AVR.int16 z = z.
Proof.
  unfold AVR.int_range, AVR.int16. intros Hz.
  rewrite Z.mod_small by lia. lia.
Qed.

(** On an [int] count neither the increment nor [count - 1] overflows. *)
Lemma calcMovingAverage_no_overflow (mA Xi : float) (count : Z) :
  AVR.int_range count ->
  calcMovingAverage mA Xi count =
  let c := if count <? maxN then count + 1 else count in
  (F32.div (F32.add (F32.mul mA (F32.of_Z (c - 1))) Xi) (F32.of_Z c), c).
Proof.
  unfold AVR.int_range, calcMovingAverage, maxN. intros Hr. cbv zeta.
  destruct (Z.ltb_spec count 64) as [Hlt | Hge].
  - rewrite (int16_small (count + 1)) by (unfold AVR.int_range; lia).
    rewrite (int16_small (count + 1 - 1)) by (unfold AVR.int_range; lia).
    reflexivity.
  - rewrite (int16_small (count - 1)) by (unfold AVR.int_range; lia).
    reflexivity.
Qed.

(** A count above [maxN] is left as it is, not brought down to [maxN]. *)
Lemma moving_average_count_counterexample :
  snd (calcMovingAverage F32.zero F32.zero 65) = 65 /\
  Z.min (65 + 1) 64 = 64 /\
  snd (calcMovingAverage F32.zero F32.zero 65) <> Z.min (65 + 1) 64.
Proof.
  repeat split. vm_compute. discriminate.
Qed.

(** C5, as the sketch behaves: for every average and sample and every
    [int] count up to [maxN] = 64, [calcMovingAverage] returns
    [(mA * (newCount - 1) + Xi) / newCount] in binary32 arithmetic with
    [newCount = min (count + 1) maxN], and leaves the count at [newCount]. *)
Theorem moving_average_formula (mA Xi : float) (count : Z) :
  AVR.int_range count ->
  count <= maxN ->
  let newCount := Z.min (count + 1) maxN in
  calcMovingAverage mA Xi count =
  (F32.div (F32.add (F32.mul mA (F32.of_Z (newCount - 1))) Xi) (F32.of_Z newCount),
   newCount).
Proof.
  intros Hr Hc. cbv zeta.
  rewrite calcMovingAverage_no_overflow by exact Hr. cbv zeta.
  unfold maxN in *.
  destruct (Z.ltb_spec count 64) as [Hlt | Hge].
  - rewrite Z.min_l by lia. reflexivity.
  - rewrite Z.min_r by lia. assert (E : count = 64) by lia. rewrite E. reflexivity.
Qed.

Lemma moving_average_formula_witness :
  calcMovingAverage F32.zero (F32.of_Z 1) 0 =
  (F32.div (F32.add (F32.mul F32.zero (F32.of_Z (Z.min (0 + 1) maxN - 1))) (F32.of_Z 1))
           (F32.of_Z (Z.min (0 + 1) maxN)),
   Z.min (0 + 1) maxN).
Proof.
  apply (moving_average_formula F32.zero (F32.of_Z 1) 0).
  - unfold AVR.int_range. lia.
  - unfold maxN. lia.
Defined.

(** ** C10 *)

(** C10: called with a count in [0, 64], [calcMovingAverage] leaves a count
    in [1, 64] that is not below the one it was given; that count is the
    denominator of the division, and as a [float] it is a positive finite
    number, not a zero. *)
Theorem moving_average_count_bounds (mA Xi : float) (count : Z) :
  0 <= count <= maxN ->
  let count' := snd (calcMovingAverage mA Xi count) in
  1 <= count' <= maxN /\
  count <= count' /\
  fst (calcMovingAverage mA Xi count) =
    F32.div (F32.add (F32.mul mA (F32.of_Z (count' - 1))) Xi) (F32.of_Z count') /\
  (exists m e, F32.of_Z count' = S754_finite false m e) /\
  F32.is_zero (F32.of_Z count') = false.
Proof.
  unfold maxN. intros Hc. cbv zeta.
  rewrite calcMovingAverage_no_overflow by (unfold AVR.int_range; lia).
  cbv zeta. cbn [fst snd]. unfold maxN.
  set (n := if count <? 64 then count + 1 else count).
  assert (Hn : 1 <= n <= 64 /\ count <= n)
    by (unfold n; destruct (Z.ltb_spec count 64); lia).
  destruct (of_Z_small n ltac:(lia)) as (m & a & E & _).
  repeat split; try lia.
  - rewrite E. eauto.
  - rewrite E. reflexivity.
Qed.

Lemma moving_average_count_bounds_witness :
  1 <= snd (calcMovingAverage F32.zero (F32.of_Z 1) 64) <= maxN /\
  64 <= snd (calcMovingAverage F32.zero (F32.of_Z 1) 64).
Proof.
  destruct (moving_average_count_bounds F32.zero (F32.of_Z 1) 64) as (H1 & H2 & _).
  - unfold maxN. lia.
  - split; [ exact H1 | exact H2 ].
Defined.

(** ** The [switch], case by case *)

Arguments calcMovingAverage : simpl never.

Lemma fanSwitch_notRunning (g : Globals) :
  runState g = notRunning ->
  fanSwitch g =
  if onRequested g
  then (set_relayControlPin LOW
          (set_onPeriodStart (currentTime g)
             (set_SSrunning true (set_runState Running g))), [LOW])
  else (g, []).
Proof.
  intros H. unfold fanSwitch. rewrite H. unfold_stmt.
  destruct (onRequested g); reflexivity.
Qed.

Lemma fanSwitch_Running (g : Globals) :
  runState g = Running ->
  let r := calcPeriodRatio (currentTime g) (onPeriodStart g) (totPeriodStart g) in
  fanSwitch g =
  if offRequested g then
    if adjustmentEnabled g && F32.ltb r (desiredRatio g) then
      (set_runState RunningAdjusting (set_actualRatio r g), [])
    else
      (set_relayControlPin HIGH
         (set_totPeriodStart (currentTime g)
            (set_actualRatio (F32.of_Z 0)
               (set_movingAverage (fst (calcMovingAverage (movingAverage g) r (averageCount g)))
                  (set_averageCount (snd (calcMovingAverage (movingAverage g) r (averageCount g)))
                     (set_SSrunning false (set_runState notRunning (set_actualRatio r g))))))),
       [HIGH])
  else if adjustmentEnabled g && F32.gtb r (desiredRatio g) then
    (set_runState notRunningAdjusting (set_actualRatio r g), [])
  else (set_actualRatio r g, []).
Proof.
  intros H r. unfold fanSwitch. rewrite H. unfold_stmt. cbn.
  fold r. unfold offRequested.
  destruct (adjustmentEnabled g && F32.gtb r (desiredRatio g)) eqn:E1; cbn;
    destruct (SSbedroom g || SSoffice g || SSfurnace g ||
              SSkitchen g && (currentTime g >? doorComplete g)); cbn;
    try reflexivity;
    destruct (adjustmentEnabled g && F32.ltb r (desiredRatio g)) eqn:E2;
    cbn; reflexivity.
Qed.

Lemma fanSwitch_RunningAdjusting (g : Globals) :
  runState g = RunningAdjusting ->
  let r := calcPeriodRatio (currentTime g) (onPeriodStart g) (totPeriodStart g) in
  fanSwitch g =
  if F32.gtb r (desiredRatio g) || negb (adjustmentEnabled g) then
    (set_SSrunning false
       (set_runState notRunning
          (set_relayControlPin HIGH
             (set_totPeriodStart (currentTime g)
                (set_actualRatio (F32.of_Z 0)
                   (set_movingAverage (fst (calcMovingAverage (movingAverage g) r (averageCount g)))
                      (set_averageCount (snd (calcMovingAverage (movingAverage g) r (averageCount g)))
                         (set_actualRatio r g))))))),
     [HIGH])
  else (set_actualRatio r g, []).
Proof.
  intros H r. unfold fanSwitch. rewrite H. unfold_stmt. cbn. fold r.
  destruct (F32.gtb r (desiredRatio g) || negb (adjustmentEnabled g)); reflexivity.
Qed.

Lemma fanSwitch_notRunningAdjusting (g : Globals) :
  runState g = notRunningAdjusting ->
  fanSwitch g =
  if offRequested g then
    (set_runState notRunning
       (set_totPeriodStart (currentTime g)
          (set_actualRatio (F32.of_Z 0)
             (set_movingAverage
                (fst (calcMovingAverage (movingAverage g) (actualRatio g) (averageCount g)))
                (set_averageCount
                   (snd (calcMovingAverage (movingAverage g) (actualRatio g) (averageCount g)))
                   (set_SSrunning false (set_relayControlPin HIGH g)))))),
     [HIGH])
  else (set_SSrunning false (set_relayControlPin HIGH g), [HIGH]).
Proof.
  intros H. unfold fanSwitch. rewrite H. unfold_stmt. unfold offRequested. cbn.
  destruct (SSbedroom g || SSoffice g || SSfurnace g ||
            SSkitchen g && (currentTime g >? doorComplete g)); reflexivity.
Qed.

Lemma off_on_exclusive (g : Globals) :
  offRequested g = true -> onRequested g = false.
Proof.
  unfold offRequested, onRequested.
  destruct (SSbedroom g), (SSoffice g), (SSfurnace g), (SSkitchen g); cbn; congruence.
Qed.

(** ** C1 *)

(** Ratio 100/200 against 30 percent, adjustment enabled, nothing asking
    for off: the pass ends in [notRunningAdjusting]. *)
Lemma running_over_target_counterexample :
  runState overTarget = Running /\
  adjustmentEnabled overTarget = true /\
  F32.gtb (calcPeriodRatio (currentTime overTarget) (onPeriodStart overTarget)
             (totPeriodStart overTarget)) (desiredRatio overTarget) = true /\
  offRequested overTarget = false /\
  runState (fst (fanSwitch overTarget)) <> RunningAdjusting.
Proof.
  repeat split; try reflexivity.
  vm_compute. discriminate.
Qed.

(** C1, as the sketch behaves: from [Running], with adjustment enabled, a
    period ratio strictly above the desired one and no off request, the
    pass moves to [notRunningAdjusting].  It writes nothing to the relay, so
    the pin keeps its level for this pass; the next pass, finding
    [notRunningAdjusting], drives the pin HIGH and the fan stops. *)
Theorem running_over_target_goes_notRunningAdjusting (g : Globals) :
  runState g = Running ->
  adjustmentEnabled g = true ->
  F32.gtb (calcPeriodRatio (currentTime g) (onPeriodStart g) (totPeriodStart g))
          (desiredRatio g) = true ->
  offRequested g = false ->
  runState (fst (fanSwitch g)) = notRunningAdjusting /\
  snd (fanSwitch g) = [] /\
  relayControlPin (fst (fanSwitch g)) = relayControlPin g /\
  snd (fanSwitch (fst (fanSwitch g))) = [HIGH] /\
  relayControlPin (fst (fanSwitch (fst (fanSwitch g)))) = HIGH.
Proof.
  intros Hrun Hadj Hgt Hoff.
  assert (E : fanSwitch g =
    (set_runState notRunningAdjusting
       (set_actualRatio
          (calcPeriodRatio (currentTime g) (onPeriodStart g) (totPeriodStart g)) g),
     [])).
  { unfold fanSwitch. rewrite Hrun. unfold_stmt. cbn.
    rewrite Hadj, Hgt. cbn.
    unfold offRequested in *. cbn. rewrite Hoff. reflexivity. }
  rewrite E. cbn [fst snd].
  repeat split.
  - unfold fanSwitch. cbn [runState set_runState]. unfold_stmt. cbn.
    destruct (offRequested _); reflexivity.
  - unfold fanSwitch. cbn [runState set_runState]. unfold_stmt. cbn.
    destruct (offRequested _); reflexivity.
Qed.

Lemma running_over_target_witness :
  runState (fst (fanSwitch overTarget)) = notRunningAdjusting /\
  snd (fanSwitch overTarget) = [] /\
  relayControlPin (fst (fanSwitch overTarget)) = relayControlPin overTarget /\
  snd (fanSwitch (fst (fanSwitch overTarget))) = [HIGH] /\
  relayControlPin (fst (fanSwitch (fst (fanSwitch overTarget)))) = HIGH.
Proof.
  apply (running_over_target_goes_notRunningAdjusting overTarget);
    vm_compute; reflexivity.
Defined.

(** ** C2 *)

(** The bedroom window is open and the door deadline has not passed: the
    gated disjunction is false, yet the pass takes the off path and stops
    the fan. *)
Lemma off_path_gate_counterexample :
  runState bedroomOpenEarly = Running /\
  (SSbedroom bedroomOpenEarly || SSoffice bedroomOpenEarly ||
   SSfurnace bedroomOpenEarly || SSkitchen bedroomOpenEarly) &&
  (currentTime bedroomOpenEarly >? doorComplete bedroomOpenEarly) = false /\
  offPathTaken bedroomOpenEarly /\
  snd (fanSwitch bedroomOpenEarly) = [HIGH].
Proof.
  repeat split; try reflexivity.
  left. vm_compute. reflexivity.
Qed.

(** C2, as the sketch behaves: in [Running] and in [notRunningAdjusting] the
    off path is taken exactly when the bedroom window, the office window or
    the furnace signal is asserted, or the door is asserted and the clock is
    strictly past [doorComplete].  The delay gates the door alone: each of
    the other three forces the off path whether or not the delay has
    elapsed. *)
Theorem off_path_taken_iff (g : Globals) :
  runState g = Running \/ runState g = notRunningAdjusting ->
  (offPathTaken g <->
   SSbedroom g = true \/ SSoffice g = true \/ SSfurnace g = true \/
   (SSkitchen g = true /\ doorComplete g < currentTime g)).
Proof.
  intros Hst. rewrite <- offRequested_spec.
  unfold offPathTaken, fanSwitch.
  destruct Hst as [Hst | Hst]; rewrite Hst; unfold_stmt; unfold offRequested; cbn;
    repeat (split_if; cbn); split; intros H;
    try congruence; try (destruct H; congruence); auto.
Qed.

Lemma off_path_taken_witness :
  offPathTaken bedroomOpenEarly <->
  SSbedroom bedroomOpenEarly = true \/ SSoffice bedroomOpenEarly = true \/
  SSfurnace bedroomOpenEarly = true \/
  (SSkitchen bedroomOpenEarly = true /\
   doorComplete bedroomOpenEarly < currentTime bedroomOpenEarly).
Proof.
  apply (off_path_taken_iff bedroomOpenEarly).
  left. reflexivity.
Defined.

(** ** C7 *)

(** A pass that finds the fan running and nothing changed makes no call. *)
Lemma relay_call_every_cycle_counterexample :
  snd (controlCycle quietInputs quietRunning) = [] /\
  runState (fst (controlCycle quietInputs quietRunning)) = Running /\
  length (snd (controlCycle quietInputs quietRunning)) <> 1%nat.
Proof.
  repeat split. vm_compute. discriminate.
Qed.

(** C7, as the sketch behaves: a pass writes the relay pin at most once.  It
    writes HIGH when it stops the fan (ending in [notRunning] from any other
    state) and in every pass that starts in [notRunningAdjusting]; it writes
    LOW when it starts the fan ([notRunning] to [Running]); a written value
    agrees with the state the pass ends in.  Every other pass (staying in
    [Running], [notRunning] or [RunningAdjusting], or leaving [Running] for
    one of the adjusting states) makes no call and leaves the pin as it
    was. *)
Theorem relay_written_at_most_once (i : Inputs) (g : Globals) :
  let g' := fst (controlCycle i g) in
  match snd (controlCycle i g) with
  | [] =>
      relayControlPin g' = relayControlPin g /\
      runState g <> notRunningAdjusting /\
      (runState g' = runState g \/
       (runState g = Running /\
        (runState g' = RunningAdjusting \/ runState g' = notRunningAdjusting)))
  | [HIGH] =>
      relayControlPin g' = HIGH /\
      runState g <> notRunning /\
      (runState g' = notRunning \/
       (runState g = notRunningAdjusting /\ runState g' = notRunningAdjusting))
  | [LOW] =>
      relayControlPin g' = LOW /\
      runState g = notRunning /\ runState g' = Running
  | _ => False
  end.
Proof.
  unfold controlCycle, seq.
  destruct (readClock i g) as [g1 w1] eqn:E1.
  destruct (readSensors i g1) as [g2 w2] eqn:E2.
  assert (H1 : w1 = [] /\ runState g1 = runState g /\
               relayControlPin g1 = relayControlPin g).
  { revert E1. unfold_stmt. cbn. repeat (split_if; cbn);
      intros E; inversion E; subst; cbn; auto. }
  assert (H2 : w2 = [] /\ runState g2 = runState g1 /\
               relayControlPin g2 = relayControlPin g1).
  { revert E2. unfold_stmt. cbn. repeat (split_if; cbn);
      intros E; inversion E; subst; cbn; auto. }
  destruct H1 as (-> & R1 & P1). destruct H2 as (-> & R2 & P2).
  rewrite <- R1, <- R2, <- P1, <- P2. clear.
  unfold fanSwitch.
  destruct (runState g2) eqn:Hst; unfold_stmt; cbn;
    repeat (split_if; cbn); rewrite ?Hst; intuition congruence.
Qed.

(** ** C8 *)

(** From [RunningAdjusting] with adjustment disabled and every switch quiet,
    the first application stops the fan and the second starts it again. *)
Lemma transition_twice_counterexample :
  runState (fst (fanSwitch adjustingDisabled)) = notRunning /\
  relayControlPin (fst (fanSwitch adjustingDisabled)) = HIGH /\
  runState (fst (fanSwitch (fst (fanSwitch adjustingDisabled)))) = Running /\
  relayControlPin (fst (fanSwitch (fst (fanSwitch adjustingDisabled)))) = LOW /\
  runState (fst (fanSwitch (fst (fanSwitch adjustingDisabled)))) <>
  runState (fst (fanSwitch adjustingDisabled)) /\
  runState (fst (controlCycle quietInputs adjustingDisabled)) = notRunning /\
  runState (fst (controlCycle quietInputs
                   (fst (controlCycle quietInputs adjustingDisabled)))) = Running.
Proof.
  repeat split. vm_compute. discriminate.
Qed.

(** C8, as the sketch behaves.  Applying the [switch] a second time to the
    same inputs never folds a second sample: [averageCount] and
    [movingAverage] are those left by the first application.  With a
    desired ratio that is not negative, the run state after the second
    application is that after the first, except when the first left
    [RunningAdjusting] for [notRunning] while the start condition held (the
    second then restarts the fan).  The relay pin is then the same too,
    except that a pass from [Running] to [notRunningAdjusting] leaves the
    pin as it was and only the second pass drives it HIGH. *)
Theorem transition_twice (g : Globals) :
  let once := fst (fanSwitch g) in
  let twice := fst (fanSwitch once) in
  (averageCount twice = averageCount once /\
   movingAverage twice = movingAverage once) /\
  (F32.ltb (desiredRatio g) F32.zero = false ->
   (runState g = RunningAdjusting -> runState once = notRunning ->
    onRequested g = false) ->
   runState twice = runState once /\
   ((runState g = Running -> runState once = notRunningAdjusting ->
     relayControlPin g = HIGH) ->
    relayControlPin twice = relayControlPin once)).
Proof.
  cbv zeta.
  pose proof (SFltb_asym
    (calcPeriodRatio (currentTime g) (onPeriodStart g) (totPeriodStart g))
    (desiredRatio g)) as Hasym.
  pose proof (ratio_at_on_start (currentTime g) (totPeriodStart g)
    (desiredRatio g)) as Hzero.
  pose proof (off_on_exclusive g) as Hexcl.
  destruct (runState g) eqn:Hst.
  - (* notRunning *)
    rewrite (fanSwitch_notRunning g Hst).
    destruct (onRequested g) eqn:Hon; cbn [fst].
    + rewrite fanSwitch_Running by reflexivity. cbn.
      change (offRequested _) with (offRequested g).
      destruct (offRequested g) eqn:Hoff; [ specialize (Hexcl eq_refl); congruence | ].
      split.
      * destruct (adjustmentEnabled g && _); cbn; auto.
      * intros Hd _. rewrite (Hzero Hd), andb_false_r. cbn. auto.
    + rewrite (fanSwitch_notRunning g Hst), Hon. cbn. auto.
  - (* Running *)
    rewrite (fanSwitch_Running g Hst). cbv zeta.
    set (r := calcPeriodRatio _ _ _) in *.
    destruct (offRequested g) eqn:Hoff.
    + specialize (Hexcl eq_refl).
      destruct (adjustmentEnabled g && F32.ltb r (desiredRatio g)) eqn:E; cbn [fst].
      * rewrite fanSwitch_RunningAdjusting by reflexivity. cbn. fold r.
        apply andb_prop in E. destruct E as [Ea El].
        unfold F32.gtb. rewrite (Hasym El), Ea. cbn. auto.
      * rewrite fanSwitch_notRunning by reflexivity.
        change (onRequested _) with (onRequested g). rewrite Hexcl. cbn. auto.
    + destruct (adjustmentEnabled g && F32.gtb r (desiredRatio g)) eqn:E; cbn [fst].
      * rewrite fanSwitch_notRunningAdjusting by reflexivity.
        change (offRequested _) with (offRequested g). rewrite Hoff. cbn.
        split; auto. intros _ _. split; auto. intros Hp. symmetry. auto.
      * rewrite fanSwitch_Running by exact Hst. cbn. fold r.
        change (offRequested _) with (offRequested g). rewrite Hoff, E. cbn. auto.
  - (* RunningAdjusting *)
    rewrite (fanSwitch_RunningAdjusting g Hst). cbv zeta.
    set (r := calcPeriodRatio _ _ _) in *.
    destruct (F32.gtb r (desiredRatio g) || negb (adjustmentEnabled g)) eqn:E; cbn [fst].
    + rewrite fanSwitch_notRunning by reflexivity.
      change (onRequested _) with (onRequested g).
      destruct (onRequested g) eqn:Hon; cbn; split; auto.
      * intros _ Hra. specialize (Hra eq_refl eq_refl). congruence.
    + rewrite fanSwitch_RunningAdjusting by exact Hst. cbn. fold r.
      rewrite E. cbn. auto.
  - (* notRunningAdjusting *)
    rewrite (fanSwitch_notRunningAdjusting g Hst).
    destruct (offRequested g) eqn:Hoff; cbn [fst].
    + specialize (Hexcl eq_refl).
      rewrite fanSwitch_notRunning by reflexivity.
      change (onRequested _) with (onRequested g). rewrite Hexcl. cbn. auto.
    + rewrite fanSwitch_notRunningAdjusting by exact Hst.
      change (offRequested _) with (offRequested g). rewrite Hoff. cbn. auto.
Qed.

Lemma transition_twice_witness :
  runState (fst (fanSwitch (fst (fanSwitch bedroomOpenEarly)))) =
  runState (fst (fanSwitch bedroomOpenEarly)) /\
  relayControlPin (fst (fanSwitch (fst (fanSwitch bedroomOpenEarly)))) =
  relayControlPin (fst (fanSwitch bedroomOpenEarly)).
Proof.
  destruct (transition_twice bedroomOpenEarly) as [_ H].
  destruct H as [Hs Hp].
  - reflexivity.
  - intros Hra. vm_compute in Hra. discriminate Hra.
  - split.
    + exact Hs.
    + apply Hp. intros _ Hn. vm_compute in Hn. discriminate Hn.
Defined.

(** ** The door delay *)

Lemma read_door (i : Inputs) (g : Globals) :
  let v := fst ((readClock i ;; readSensors i)%stmt g) in
  currentTime v = now i /\
  SSkitchen v = negb (is_LOW (kitchenSensorInput i)) /\
  doorComplete v =
    (if Bool.eqb (SSkitchen g) (negb (is_LOW (kitchenSensorInput i)))
     then doorComplete g
     else AVR.uadd (now i) doorDelay).
Proof.
  unfold_stmt. cbn.
  destruct ((onPeriodStart g =? 0) && RunState_eqb (runState g) Running); cbn;
    destruct (kitchenSensorInput i); cbn;
    destruct (SSkitchen g); cbn;
    destruct (totPeriodStart g =? 0); cbn; auto.
Qed.

Lemma fanSwitch_door_frame (g : Globals) :
  SSkitchen (fst (fanSwitch g)) = SSkitchen g /\
  doorComplete (fst (fanSwitch g)) = doorComplete g.
Proof.
  destruct (runState g) eqn:Hst.
  - rewrite (fanSwitch_notRunning g Hst). destruct (onRequested g); auto.
  - rewrite (fanSwitch_Running g Hst). cbv zeta.
    destruct (offRequested g); destruct (_ && _); auto.
  - rewrite (fanSwitch_RunningAdjusting g Hst). cbv zeta.
    destruct (_ || _); auto.
  - rewrite (fanSwitch_notRunningAdjusting g Hst).
    destruct (offRequested g); auto.
Qed.

Lemma doorSettled_off (g : Globals) :
  doorSettled g = false ->
  offRequested g = SSbedroom g || SSoffice g || SSfurnace g.
Proof.
  unfold doorSettled, offRequested. intros ->. apply orb_false_r.
Qed.

(** With the door term false, the start condition is what it would be with
    the door reading closed: an open door and a pending deadline both block
    it, and while the door term is false an open door has a pending
    deadline. *)
Lemma doorSettled_on (g : Globals) :
  doorSettled g = false ->
  onRequested g =
  negb (SSbedroom g) && negb (SSoffice g) && negb (SSfurnace g) &&
  (currentTime g >? doorComplete g).
Proof.
  unfold doorSettled, onRequested. intros H. f_equal.
  destruct (SSkitchen g), (currentTime g >? doorComplete g);
    cbn in *; congruence.
Qed.

Section BriefOpening.

Variable t0 : Z.
Hypothesis t0_nonneg : 0 <= t0.
Hypothesis deadline_fits : t0 + 60 + doorDelay < 2 ^ 32.

(** The invariant [doorArmed t0] carries through every pass that reads the
    door closed, or reads it open within 60 s of [t0]; under it the door
    term is false. *)
Lemma door_pass (i : Inputs) (g : Globals) :
  kitchenSensorInput i = LOW \/ t0 <= now i <= t0 + 60 ->
  doorArmed t0 g ->
  let v := fst ((readClock i ;; readSensors i)%stmt g) in
  doorSettled v = false /\ doorArmed t0 (fst (fanSwitch v)).
Proof.
  intros Hi Hg. cbv zeta.
  destruct (read_door i g) as (Ht & Hk & Hd).
  set (v := fst ((readClock i ;; readSensors i)%stmt g)) in *.
  destruct (fanSwitch_door_frame v) as [E1 E2].
  unfold doorSettled, doorArmed. rewrite E1, E2, Hk, Ht, Hd. clear Hk Ht Hd E1 E2 v.
  assert (Hw : forall t, t0 <= t <= t0 + 60 -> AVR.uadd t doorDelay = t + 120).
  { intros t Hr. unfold AVR.uadd, doorDelay in *. apply Z.mod_small. lia. }
  destruct (kitchenSensorInput i) eqn:Hpin; cbn [is_LOW negb andb].
  - auto.
  - destruct Hi as [Hlow | Hwin]; [ congruence | ].
    rewrite Z.gtb_ltb, Z.ltb_ge.
    destruct (SSkitchen g) eqn:Hsk; cbn [Bool.eqb].
    + destruct Hg as [Hg | Hg]; [ congruence | ].
      unfold doorDelay in *. split; [ lia | right; lia ].
    + rewrite (Hw _ Hwin). unfold doorDelay. split; [ lia | right; lia ].
Qed.

Lemma brief_openings_general (passes : list Inputs) :
  Forall (fun i => kitchenSensorInput i = LOW \/ t0 <= now i <= t0 + 60) passes ->
  forall g, doorArmed t0 g ->
  Forall (fun v => doorSettled v = false) (switchViews passes g).
Proof.
  intros Hall. induction Hall as [ | i rest Hi _ IH]; intros g Hg.
  - constructor.
  - cbn [switchViews].
    destruct (door_pass i g Hi Hg) as [Hs Ha].
    constructor; [ exact Hs | apply IH; exact Ha ].
Qed.

End BriefOpening.

(** ** C9 *)

(** C9: the door reads open only in passes whose clock lies within 60 s
    of [t0] and reads closed in all passes before and after.  Then in no pass
    does the [switch] find the door term of its off condition true: the off
    condition is that of the two windows and the furnace alone, and the
    start condition is what it would be with the door reading closed.  (The
    clock stays clear of the 32-bit limit, so the deadline does not wrap.) *)
Theorem brief_door_opening_never_settles
    (t0 : Z) (before opened after : list Inputs) (g : Globals) :
  0 <= t0 ->
  t0 + 60 + doorDelay < 2 ^ 32 ->
  SSkitchen g = false ->
  Forall (fun i => kitchenSensorInput i = LOW) before ->
  Forall (fun i => kitchenSensorInput i = HIGH /\ t0 <= now i <= t0 + 60) opened ->
  Forall (fun i => kitchenSensorInput i = LOW) after ->
  Forall (fun v => doorSettled v = false /\
                   offRequested v = SSbedroom v || SSoffice v || SSfurnace v /\
                   onRequested v =
                     negb (SSbedroom v) && negb (SSoffice v) && negb (SSfurnace v) &&
                     (currentTime v >? doorComplete v))
         (switchViews (before ++ opened ++ after) g).
Proof.
  intros Ht0 Hmax Hclosed Hb Ho Ha.
  assert (Hall : Forall (fun i => kitchenSensorInput i = LOW \/ t0 <= now i <= t0 + 60)
                   (before ++ opened ++ after)).
  { rewrite !Forall_app. repeat split.
    - eapply Forall_impl; [ | exact Hb ]. cbn. auto.
    - eapply Forall_impl; [ | exact Ho ]. cbn. tauto.
    - eapply Forall_impl; [ | exact Ha ]. cbn. auto. }
  pose proof (brief_openings_general t0 Ht0 Hmax _ Hall g (or_introl Hclosed)) as H.
  eapply Forall_impl; [ | exact H ].
  intros v Hv. split; [ exact Hv | ].
  split; [ apply doorSettled_off; exact Hv | apply doorSettled_on; exact Hv ].
Qed.

Lemma brief_door_opening_witness :
  Forall (fun v => doorSettled v = false /\
                   offRequested v = SSbedroom v || SSoffice v || SSfurnace v /\
                   onRequested v =
                     negb (SSbedroom v) && negb (SSoffice v) && negb (SSfurnace v) &&
                     (currentTime v >? doorComplete v))
         (switchViews (briefBefore ++ briefOpened ++ briefAfter) quietRunning).
Proof.
  apply (brief_door_opening_never_settles 1000).
  - lia.
  - unfold doorDelay. lia.
  - reflexivity.
  - repeat constructor.
  - repeat constructor; cbn; lia.
  - repeat constructor.
Defined.

(** The delay does let a door that stays open through: held open from 1000,
    the door is seen at 1121, once the clock has passed 1000 + 120. *)
Example door_held_open_settles :
  map doorSettled
    (switchViews [mkInputs 1000 LOW LOW HIGH LOW; mkInputs 1120 LOW LOW HIGH LOW;
                  mkInputs 1121 LOW LOW HIGH LOW] quietRunning) =
  [false; false; true].
Proof. vm_compute. reflexivity. Qed.

(** * The loop as a whole *)

(** ** One pass, taken apart *)

(** Reading the clock and the switches writes nothing to the relay and
    leaves the run state, the averages and the user's settings alone. *)
Lemma reads_frame (i : Inputs) (g : Globals) :
  let r := (readClock i ;; readSensors i)%stmt g in
  snd r = [] /\
  runState (fst r) = runState g /\
  relayControlPin (fst r) = relayControlPin g /\
  SSrunning (fst r) = SSrunning g /\
  averageCount (fst r) = averageCount g /\
  movingAverage (fst r) = movingAverage g /\
  adjustmentEnabled (fst r) = adjustmentEnabled g /\
  desiredRatio (fst r) = desiredRatio g.
Proof.
  unfold_stmt. cbn.
  destruct ((onPeriodStart g =? 0) && RunState_eqb (runState g) Running); cbn;
    destruct (kitchenSensorInput i); cbn;
    destruct (SSkitchen g); cbn;
    destruct (totPeriodStart g =? 0); cbn; repeat split.
Qed.

Lemma reads_sensors (i : Inputs) (g : Globals) :
  let v := fst ((readClock i ;; readSensors i)%stmt g) in
  SSbedroom v = negb (is_LOW (bedroomSensorInput i)) /\
  SSoffice v = negb (is_LOW (officeSensorInput i)) /\
  SSfurnace v = negb (is_LOW (furnaceSensorInput i)).
Proof.
  unfold_stmt. cbn.
  destruct ((onPeriodStart g =? 0) && RunState_eqb (runState g) Running); cbn;
    destruct (kitchenSensorInput i); cbn;
    destruct (SSkitchen g); cbn;
    destruct (totPeriodStart g =? 0); cbn; repeat split.
Qed.

Lemma controlCycle_split (i : Inputs) (g : Globals) :
  controlCycle i g = fanSwitch (fst ((readClock i ;; readSensors i)%stmt g)).
Proof.
  destruct (reads_frame i g) as (Hw & _).
  unfold controlCycle.
  change ((readClock i ;; readSensors i ;; fanSwitch)%stmt g)
    with (let (g1, w1) := readClock i g in
          let (g2, w2) := (readSensors i ;; fanSwitch)%stmt g1 in (g2, w1 ++ w2)).
  revert Hw. unfold seq.
  destruct (readClock i g) as [g1 w1].
  destruct (readSensors i g1) as [g2 w2]. cbn [fst snd].
  destruct (fanSwitch g2) as [g3 w3].
  intros Hw. apply app_eq_nil in Hw. destruct Hw as [-> ->]. reflexivity.
Qed.

Lemma readPanel_frame (p : Panel) (s : Sketch) :
  let g := globals s in
  let g' := globals (readPanel p s) in
  runState g' = runState g /\
  relayControlPin g' = relayControlPin g /\
  SSrunning g' = SSrunning g /\
  averageCount g' = averageCount g /\
  movingAverage g' = movingAverage g /\
  SSkitchen g' = SSkitchen g /\
  doorComplete g' = doorComplete g.
Proof.
  unfold readPanel. cbv zeta.
  destruct (negb (desiredPercent s =? sliderValue p)), (enablePressed p);
    cbn; repeat split.
Qed.

(** ** The run state and the relay *)

Lemma fanSwitch_relayConsistent (g : Globals) :
  relayConsistent g -> relayConsistent (fst (fanSwitch g)).
Proof.
  unfold relayConsistent. intros (Hs & Hn & Hr & Ha).
  destruct (runState g) eqn:Hst.
  - rewrite (fanSwitch_notRunning g Hst).
    destruct (onRequested g); cbn; rewrite ?Hst; repeat split; auto; congruence.
  - rewrite (fanSwitch_Running g Hst). cbv zeta.
    destruct (offRequested g); destruct (_ && _); cbn; rewrite ?Hst;
      repeat split; auto; try congruence.
  - rewrite (fanSwitch_RunningAdjusting g Hst). cbv zeta.
    destruct (_ || _); cbn; rewrite ?Hst; repeat split; auto; congruence.
  - rewrite (fanSwitch_notRunningAdjusting g Hst).
    destruct (offRequested g); cbn; rewrite ?Hst; repeat split; auto; congruence.
Qed.

Lemma loopPass_relayConsistent (p : Panel) (i : Inputs) (s : Sketch) :
  relayConsistent (globals s) -> relayConsistent (globals (fst (loopPass p i s))).
Proof.
  intros H. unfold loopPass. cbv zeta. rewrite controlCycle_split.
  destruct (readPanel_frame p s) as (P1 & P2 & P3 & _).
  destruct (reads_frame i (globals (readPanel p s))) as (_ & R1 & R2 & R3 & _).
  set (v := fst ((readClock i ;; readSensors i)%stmt (globals (readPanel p s)))) in *.
  assert (Hv : relayConsistent v).
  { unfold relayConsistent in *. rewrite R1, R2, R3, P1, P2, P3. exact H. }
  pose proof (fanSwitch_relayConsistent v Hv) as H'.
  destruct (fanSwitch v) as [g' w]. exact H'.
Qed.

Lemma setup_relayConsistent (pct : Z) (b o k f : Level) :
  relayConsistent (globals (afterSetup pct b o k f)).
Proof.
  unfold afterSetup, setup, relayConsistent. unfold_stmt. cbn.
  destruct (is_LOW b && is_LOW o && is_LOW k && is_LOW f); cbn;
    repeat split; congruence.
Qed.

(** X1 - [setup] and the [switch] of [loop]: at the end of [setup] and of
    every pass the relay and the run state agree.  The relay is off (HIGH)
    in [notRunning] and on (LOW) in [Running] and in [RunningAdjusting], and
    [SSrunning], the fan status that is logged, is true exactly when the
    relay is on. *)
Theorem relay_agrees_with_state
    (pct : Z) (b o k f : Level) (passes : list (Panel * Inputs)) :
  relayConsistent (globals (runLoop passes (afterSetup pct b o k f))).
Proof.
  generalize (setup_relayConsistent pct b o k f).
  generalize (afterSetup pct b o k f). 
  induction passes as [ | [p i] rest IH]; intros s Hs; cbn [runLoop].
  - exact Hs.
  - apply IH. apply loopPass_relayConsistent. exact Hs.
Qed.

(** ** The sample count *)

Lemma calcMovingAverage_count (mA Xi : float) (count : Z) :
  0 <= count <= maxN ->
  snd (calcMovingAverage mA Xi count) = Z.min (count + 1) maxN.
Proof.
  intros Hc. unfold maxN in *.
  rewrite calcMovingAverage_no_overflow by (unfold AVR.int_range; lia).
  cbv zeta. cbn [snd]. unfold maxN.
  destruct (Z.ltb_spec count 64); lia.
Qed.

Lemma fanSwitch_count (g : Globals) :
  0 <= averageCount g <= maxN ->
  averageCount g <= averageCount (fst (fanSwitch g)) <= averageCount g + 1 /\
  averageCount (fst (fanSwitch g)) <= maxN.
Proof.
  intros Hc.
  pose proof (fun mA Xi => calcMovingAverage_count mA Xi (averageCount g) Hc) as Hm.
  unfold maxN in *.
  destruct (runState g) eqn:Hst.
  - rewrite (fanSwitch_notRunning g Hst). destruct (onRequested g); cbn; lia.
  - rewrite (fanSwitch_Running g Hst). cbv zeta.
    destruct (offRequested g); destruct (_ && _); cbn; rewrite ?Hm; lia.
  - rewrite (fanSwitch_RunningAdjusting g Hst). cbv zeta.
    destruct (_ || _); cbn; rewrite ?Hm; lia.
  - rewrite (fanSwitch_notRunningAdjusting g Hst).
    destruct (offRequested g); cbn; rewrite ?Hm; lia.
Qed.

Lemma loopPass_count (p : Panel) (i : Inputs) (s : Sketch) :
  0 <= averageCount (globals s) <= maxN ->
  averageCount (globals s) <= averageCount (globals (fst (loopPass p i s)))
    <= averageCount (globals s) + 1 /\
  averageCount (globals (fst (loopPass p i s))) <= maxN.
Proof.
  intros H. unfold loopPass. cbv zeta. rewrite controlCycle_split.
  destruct (readPanel_frame p s) as (_ & _ & _ & P4 & _).
  destruct (reads_frame i (globals (readPanel p s))) as (_ & _ & _ & _ & R4 & _).
  set (v := fst ((readClock i ;; readSensors i)%stmt (globals (readPanel p s)))) in *.
  assert (Hv : 0 <= averageCount v <= maxN) by (rewrite R4, P4; exact H).
  pose proof (fanSwitch_count v Hv) as H'.
  destruct (fanSwitch v) as [g' w]. cbn [fst globals] in *.
  rewrite R4, P4 in H'. exact H'.
Qed.

(** X2 - [calcMovingAverage] as [loop] calls it: over any passes,
    [averageCount] never decreases, grows by at most one per pass and, once
    within 0 to 64, never exceeds 64. *)
Theorem sample_count_bounded (passes : list (Panel * Inputs)) (s : Sketch) :
  0 <= averageCount (globals s) <= maxN ->
  averageCount (globals s) <= averageCount (globals (runLoop passes s)) /\
  averageCount (globals (runLoop passes s))
    <= Z.min maxN (averageCount (globals s) + Z.of_nat (length passes)).
Proof.
  revert s. induction passes as [ | [p i] rest IH]; intros s Hs; cbn [runLoop length].
  - lia.
  - destruct (loopPass_count p i s Hs) as [H1 H2].
    destruct (IH (fst (loopPass p i s)) ltac:(lia)) as [H3 H4].
    lia.
Qed.

Lemma sample_count_bounded_witness :
  let passes := [(mkPanel 30 false, quietInputs);
                 (mkPanel 30 false, mkInputs 1100 HIGH LOW LOW LOW)] in
  let s := afterSetup 30 LOW LOW LOW LOW in
  averageCount (globals (runLoop passes s)) = 1 /\
  averageCount (globals s) <= averageCount (globals (runLoop passes s)) /\
  averageCount (globals (runLoop passes s))
    <= Z.min maxN (averageCount (globals s) + Z.of_nat (length passes)).
Proof.
  cbv zeta. split; [ reflexivity | ].
  apply (sample_count_bounded
           [(mkPanel 30 false, quietInputs);
            (mkPanel 30 false, mkInputs 1100 HIGH LOW LOW LOW)]
           (afterSetup 30 LOW LOW LOW LOW)).
  vm_compute. split; discriminate.
Defined.

(** ** The transitions *)

Lemma fanSwitch_transitions (g : Globals) :
  let g' := fst (fanSwitch g) in
  runState g' = runState g \/
  (runState g = notRunning /\ runState g' = Running /\
   snd (fanSwitch g) = [LOW] /\ onRequested g = true) \/
  (runState g = Running /\
   (runState g' = RunningAdjusting \/ runState g' = notRunningAdjusting) /\
   snd (fanSwitch g) = []) \/
  (runState g <> notRunning /\ runState g' = notRunning /\
   snd (fanSwitch g) = [HIGH]).
Proof.
  cbv zeta. destruct (runState g) eqn:Hst.
  - rewrite (fanSwitch_notRunning g Hst).
    destruct (onRequested g); cbn; rewrite ?Hst; auto.
    right. left. auto.
  - rewrite (fanSwitch_Running g Hst). cbv zeta.
    destruct (offRequested g); destruct (_ && _); cbn; rewrite ?Hst; auto.
    + right. right. left. auto.
    + right. right. right. repeat split; congruence.
    + right. right. left. auto.
  - rewrite (fanSwitch_RunningAdjusting g Hst). cbv zeta.
    destruct (_ || _); cbn; rewrite ?Hst; auto.
    right. right. right. repeat split; congruence.
  - rewrite (fanSwitch_notRunningAdjusting g Hst).
    destruct (offRequested g); cbn; rewrite ?Hst; auto.
    right. right. right. repeat split; congruence.
Qed.

(** X3 - the [switch] of [loop]: every change of run state in a pass is a
    start from [notRunning] (relay written LOW), a move from [Running] to
    one of the adjusting states (relay not written), or a stop into
    [notRunning] (relay written HIGH).  So the fan is started from
    [notRunning] only, and the adjusting states are left for [notRunning]
    only. *)
Theorem run_state_changes (p : Panel) (i : Inputs) (s : Sketch) :
  let g := globals s in
  let g' := globals (fst (loopPass p i s)) in
  let w := snd (loopPass p i s) in
  runState g' = runState g \/
  (runState g = notRunning /\ runState g' = Running /\ w = [LOW]) \/
  (runState g = Running /\
   (runState g' = RunningAdjusting \/ runState g' = notRunningAdjusting) /\
   w = []) \/
  (runState g <> notRunning /\ runState g' = notRunning /\ w = [HIGH]).
Proof.
  cbv zeta. unfold loopPass. cbv zeta. rewrite controlCycle_split.
  destruct (readPanel_frame p s) as (P1 & _).
  destruct (reads_frame i (globals (readPanel p s))) as (_ & R1 & _).
  set (v := fst ((readClock i ;; readSensors i)%stmt (globals (readPanel p s)))) in *.
  pose proof (fanSwitch_transitions v) as H. cbv zeta in H.
  destruct (fanSwitch v) as [g' w]. cbn [fst snd globals] in *.
  rewrite R1, P1 in H. tauto.
Qed.

(** ** Waiting in [notRunningAdjusting] *)


Lemma quiet_no_off_request (i : Inputs) (g : Globals) :
  allQuiet i ->
  offRequested (fst ((readClock i ;; readSensors i)%stmt g)) = false.
Proof.
  intros (Hb & Ho & Hk & Hf).
  destruct (reads_sensors i g) as (Sb & So & Sf).
  destruct (read_door i g) as (_ & Sk & _).
  unfold offRequested. rewrite Sb, So, Sf, Sk, Hb, Ho, Hk, Hf. reflexivity.
Qed.

Lemma loopPass_waiting (p : Panel) (i : Inputs) (s : Sketch) :
  runState (globals s) = notRunningAdjusting ->
  allQuiet i ->
  let g' := globals (fst (loopPass p i s)) in
  runState g' = notRunningAdjusting /\
  relayControlPin g' = HIGH /\
  SSrunning g' = false /\
  averageCount g' = averageCount (globals s) /\
  movingAverage g' = movingAverage (globals s).
Proof.
  intros Hst Hq. cbv zeta. unfold loopPass. cbv zeta. rewrite controlCycle_split.
  destruct (readPanel_frame p s) as (P1 & _ & _ & P4 & P5 & _).
  destruct (reads_frame i (globals (readPanel p s))) as (_ & R1 & _ & _ & R4 & R5 & _).
  pose proof (quiet_no_off_request i (globals (readPanel p s)) Hq) as Hoff.
  set (v := fst ((readClock i ;; readSensors i)%stmt (globals (readPanel p s)))) in *.
  assert (Hv : runState v = notRunningAdjusting) by (rewrite R1, P1; exact Hst).
  rewrite (fanSwitch_notRunningAdjusting v Hv), Hoff. cbn.
  rewrite Hv, R4, R5, P4, P5. repeat split.
Qed.

Lemma runLoop_waiting (passes : list (Panel * Inputs)) :
  Forall (fun pi => allQuiet (snd pi)) passes ->
  forall s, runState (globals s) = notRunningAdjusting ->
  let g' := globals (runLoop passes s) in
  runState g' = notRunningAdjusting /\
  averageCount g' = averageCount (globals s) /\
  movingAverage g' = movingAverage (globals s) /\
  (passes <> [] -> relayControlPin g' = HIGH /\ SSrunning g' = false).
Proof.
  intros Hall.
  induction Hall as [ | [p i] rest Hq _ IH]; intros s Hst; cbn [runLoop].
  - cbv zeta. split; [ exact Hst | ]. split; [ reflexivity | ].
    split; [ reflexivity | ]. intros H. congruence.
  - destruct (loopPass_waiting p i s Hst Hq) as (H1 & H2 & H3 & H4 & H5).
    destruct (IH (fst (loopPass p i s)) H1) as (I1 & I2 & I3 & I4).
    cbv zeta. split; [ exact I1 | ]. split; [ congruence | ].
    split; [ congruence | ]. intros _.
    destruct rest as [ | x rest']; [ cbn [runLoop]; auto | apply I4; discriminate ].
Qed.

(** X4 - [loop], case [notRunningAdjusting]: once there, the sketch stays
    there, with the relay off and the moving average and its count
    untouched, for as long as all four inputs read LOW, whatever the clock,
    the slider and the enable button do. *)
Theorem waiting_until_off_request (passes : list (Panel * Inputs)) (s : Sketch) :
  runState (globals s) = notRunningAdjusting ->
  passes <> [] ->
  Forall (fun pi => allQuiet (snd pi)) passes ->
  let g' := globals (runLoop passes s) in
  runState g' = notRunningAdjusting /\
  relayControlPin g' = HIGH /\ SSrunning g' = false /\
  averageCount g' = averageCount (globals s) /\
  movingAverage g' = movingAverage (globals s).
Proof.
  intros Hst Hne Hall. cbv zeta.
  destruct (runLoop_waiting passes Hall s Hst) as (H1 & H2 & H3 & H4).
  destruct (H4 Hne) as (H5 & H6).
  repeat split; assumption.
Qed.

Lemma waiting_until_off_request_witness :
  let passes := [(mkPanel 30 false, quietInputs);
                 (mkPanel 40 true, mkInputs 1200 LOW LOW LOW LOW)] in
  let s := mkSketch (fst (fanSwitch overTarget)) 30 in
  let g' := globals (runLoop passes s) in
  runState g' = notRunningAdjusting /\
  relayControlPin g' = HIGH /\ SSrunning g' = false /\
  averageCount g' = averageCount (globals s) /\
  movingAverage g' = movingAverage (globals s).
Proof.
  apply (waiting_until_off_request
           [(mkPanel 30 false, quietInputs);
            (mkPanel 40 true, mkInputs 1200 LOW LOW LOW LOW)]
           (mkSketch (fst (fanSwitch overTarget)) 30)).
  - reflexivity.
  - discriminate.
  - repeat constructor.
Defined.

(** ** Starting the fan *)

(** X5 - the sensors and the case [notRunning] of [loop]: a pass that
    starts the fan started in [notRunning], wrote the relay LOW, found all
    four inputs LOW, found the door LOW in the pass before as well, and has
    a clock past the door deadline, which it did not move. *)
Theorem fan_start_conditions (p : Panel) (i : Inputs) (s : Sketch) :
  0 <= now i -> now i + doorDelay < 2 ^ 32 ->
  runState (globals s) <> Running ->
  runState (globals (fst (loopPass p i s))) = Running ->
  runState (globals s) = notRunning /\
  snd (loopPass p i s) = [LOW] /\
  allQuiet i /\
  SSkitchen (globals s) = false /\
  doorComplete (globals (fst (loopPass p i s))) = doorComplete (globals s) /\
  doorComplete (globals s) < now i.
Proof.
  intros Hn Hmax Hne. unfold loopPass. cbv zeta. rewrite controlCycle_split.
  destruct (readPanel_frame p s) as (P1 & _ & _ & _ & _ & P6 & P7).
  destruct (reads_frame i (globals (readPanel p s))) as (_ & R1 & _).
  destruct (reads_sensors i (globals (readPanel p s))) as (Sb & So & Sf).
  destruct (read_door i (globals (readPanel p s))) as (St & Sk & Sd).
  set (v := fst ((readClock i ;; readSensors i)%stmt (globals (readPanel p s)))) in *.
  destruct (fanSwitch_door_frame v) as [_ Fd].
  pose proof (fanSwitch_transitions v) as H. cbv zeta in H.
  destruct (fanSwitch v) as [g' w]. cbn [fst snd globals] in *.
  rewrite R1, P1 in H. intros Hrun.
  destruct H as [H | [H | [H | H]]]; try (destruct H as (? & ? & ?); congruence);
    [ congruence | ].
  destruct H as (H1 & _ & Hw & Hon).
  unfold onRequested in Hon. rewrite Sb, So, Sf, Sk, St in Hon.
  rewrite !andb_true_iff, !negb_involutive in Hon.
  destruct Hon as (((Hb & Ho) & Hf) & Hk & Hgt).
  assert (Qb : bedroomSensorInput i = LOW) by (destruct (bedroomSensorInput i); cbn in *; congruence).
  assert (Qo : officeSensorInput i = LOW) by (destruct (officeSensorInput i); cbn in *; congruence).
  assert (Qf : furnaceSensorInput i = LOW) by (destruct (furnaceSensorInput i); cbn in *; congruence).
  assert (Qk : kitchenSensorInput i = LOW) by (destruct (kitchenSensorInput i); cbn in *; congruence).
  rewrite Qk in Sd. cbn [is_LOW negb] in Sd.
  rewrite Z.gtb_ltb, Z.ltb_lt in Hgt.
  rewrite P6 in Sd. rewrite P7 in Sd.
  destruct (SSkitchen (globals s)) eqn:Ek; cbn [Bool.eqb] in Sd.
  - exfalso. rewrite Sd in Hgt. unfold AVR.uadd, doorDelay in *.
    rewrite Z.mod_small in Hgt by lia. lia.
  - rewrite Sd in Hgt. repeat split; auto; congruence.
Qed.

Lemma fan_start_conditions_witness :
  let s := afterSetup 30 HIGH LOW LOW LOW in
  let r := loopPass (mkPanel 30 false) quietInputs s in
  runState (globals s) = notRunning /\
  snd r = [LOW] /\
  allQuiet quietInputs /\
  SSkitchen (globals s) = false /\
  doorComplete (globals (fst r)) = doorComplete (globals s) /\
  doorComplete (globals s) < now quietInputs.
Proof.
  apply (fan_start_conditions (mkPanel 30 false) quietInputs
           (afterSetup 30 HIGH LOW LOW LOW)).
  - vm_compute. discriminate.
  - reflexivity.
  - vm_compute. discriminate.
  - reflexivity.
Defined.

(** ** Values of the period ratio *)

(** Inside a period no time is stepped and no difference wraps. *)
Lemma calcPeriodRatio_plain (currentT onT periodT : Z) :
  0 <= periodT -> periodT <= onT -> onT <= currentT -> currentT < 2 ^ 32 ->
  calcPeriodRatio currentT onT periodT =
  F32.div (F32.of_Z (currentT - onT)) (F32.of_Z (currentT - periodT)).
Proof.
  intros Hp Hpo Hoc Hmax. unfold calcPeriodRatio.
  assert (G : forall t, periodT <= t -> (periodT >? t) = false)
    by (intros t Ht; rewrite Z.gtb_ltb; apply Z.ltb_ge; exact Ht).
  rewrite (G currentT), (G onT) by lia.
  assert (U : forall a b, 0 <= b <= a -> a < 2 ^ 32 -> AVR.usub a b = a - b)
    by (intros a b Hab Ha; unfold AVR.usub; apply Z.mod_small; lia).
  rewrite !U by lia. reflexivity.
Qed.

Lemma one_as_quotient : F32.of_Z 1 = F32.div (F32.of_Z 1) (F32.of_Z 1).
Proof. reflexivity. Qed.

Lemma zero_as_quotient : F32.zero = F32.div (F32.of_Z 0) (F32.of_Z 1).
Proof. reflexivity. Qed.

(** X6 - [calcPeriodRatio]: for a fan switched on inside the period, at or
    before the clock, and a period shorter than 2^24 seconds, the ratio lies
    between 0 and 1. *)
Theorem ratio_in_unit_interval (currentT onT periodT : Z) :
  0 <= periodT -> periodT <= onT -> onT <= currentT -> periodT < currentT ->
  currentT - periodT < 2 ^ 24 -> currentT < 2 ^ 32 ->
  F32.leb F32.zero (calcPeriodRatio currentT onT periodT) = true /\
  F32.leb (calcPeriodRatio currentT onT periodT) (F32.of_Z 1) = true.
Proof.
  intros Hp Hpo Hoc Hlt Hspan Hmax.
  rewrite calcPeriodRatio_plain by lia.
  split.
  - rewrite zero_as_quotient. apply div_of_Z_mono; lia.
  - rewrite one_as_quotient. apply div_of_Z_mono; lia.
Qed.

Lemma ratio_in_unit_interval_witness :
  F32.leb F32.zero (calcPeriodRatio 1000 900 800) = true /\
  F32.leb (calcPeriodRatio 1000 900 800) (F32.of_Z 1) = true.
Proof.
  apply (ratio_in_unit_interval 1000 900 800); lia.
Defined.

(** A number divided by itself. *)
Lemma div_self (n : Z) :
  0 < n < 2 ^ 24 -> F32.div (F32.of_Z n) (F32.of_Z n) = F32.of_Z 1.
Proof.
  intros Hn.
  destruct (of_Z_small n Hn) as (m & a & E & Ha & Hm & Dm).
  rewrite E.
  destruct (div_canonical m m (- a) (- a) Dm Dm ltac:(lia))
    as (M & k & ER & Hk & HM & ([L U] & TU & TL & B)).
  unfold F32.div, F32.prec, F32.emax. rewrite ER.
  change (2 ^ 23) with 8388608 in *. change (2 ^ 24) with 16777216 in *.
  assert (Hpos : 0 < Zpos m) by lia.
  assert (Hk' : k = 0 \/ k = 1 \/ k = 2) by lia.
  destruct Hk' as [-> | [-> | ->]].
  - exfalso. change (2 ^ 0) with 1 in *. nia.
  - change (2 ^ 1) with 2 in *.
    assert (Zpos M = 8388608) by nia.
    assert (EM : M = 8388608%positive) by lia. subst M.
    replace (- a - - a - 24 + 1) with (-23) by lia. reflexivity.
  - exfalso. change (2 ^ 2) with 4 in *. nia.
Qed.

(** X7 - [calcPeriodRatio], the two ends of a period shorter than 2^24
    seconds: a fan switched on just now has ratio +0, a fan on since the
    period began has ratio exactly 1. *)
Theorem ratio_ends (currentT periodT : Z) :
  0 <= periodT -> periodT < currentT -> currentT < 2 ^ 32 ->
  currentT - periodT < 2 ^ 24 ->
  calcPeriodRatio currentT currentT periodT = F32.zero /\
  calcPeriodRatio currentT periodT periodT = F32.of_Z 1.
Proof.
  intros Hp Hlt Hmax Hspan. split.
  - rewrite calcPeriodRatio_plain by lia. rewrite Z.sub_diag.
    destruct (of_Z_pos_finite (currentT - periodT) ltac:(lia)) as (m & e & ->).
    reflexivity.
  - rewrite calcPeriodRatio_plain by lia.
    apply div_self. lia.
Qed.

Lemma ratio_ends_witness :
  calcPeriodRatio 1000 1000 800 = F32.zero /\
  calcPeriodRatio 1000 800 800 = F32.of_Z 1.
Proof.
  apply (ratio_ends 1000 800); lia.
Defined.

(** ** The desired ratio *)

Lemma leb_zero_not_negative (r : float) :
  F32.leb F32.zero r = true -> F32.ltb r F32.zero = false.
Proof.
  unfold F32.leb, F32.ltb, F32.zero, SFleb, SFltb.
  destruct r as [s | s | | s m e]; try destruct s; cbn; congruence.
Qed.

(** X8 - the desired ratio as [setup] and [loop] compute it,
    [desiredPercent / 100.0]: over the range of the slider, 0 to 100, it
    grows with the percent and lies between 0 and 1; in particular it is
    never negative. *)
Theorem percentRatio_monotone (a b : Z) :
  0 <= a -> a <= b -> b <= 100 ->
  F32.leb (percentRatio a) (percentRatio b) = true /\
  F32.leb F32.zero (percentRatio a) = true /\
  F32.leb (percentRatio a) (F32.of_Z 1) = true /\
  F32.ltb (percentRatio a) F32.zero = false.
Proof.
  intros Ha Hab Hb. unfold percentRatio.
  assert (H0 : F32.leb F32.zero (F32.div (F32.of_Z a) (F32.of_Z 100)) = true).
  { rewrite zero_as_quotient. apply div_of_Z_mono; lia. }
  split; [ apply div_of_Z_mono; lia | ].
  split; [ exact H0 | ]. split.
  - replace (F32.of_Z 1) with (F32.div (F32.of_Z 100) (F32.of_Z 100))
      by (apply div_self; lia).
    apply div_of_Z_mono; lia.
  - apply leb_zero_not_negative. exact H0.
Qed.

Lemma percentRatio_monotone_witness :
  F32.leb (percentRatio 30) (percentRatio 70) = true /\
  F32.leb F32.zero (percentRatio 30) = true /\
  F32.leb (percentRatio 30) (F32.of_Z 1) = true /\
  F32.ltb (percentRatio 30) F32.zero = false.
Proof.
  apply (percentRatio_monotone 30 70); lia.
Defined.

(** ** The first sample *)

(** Division by 1 is exact on a normal number. *)
Lemma div_by_one (M : positive) (E : Z) :
  Zpos (digits2_pos M) = 24 -> -100 <= E <= 50 ->
  F32.div (S754_finite false M E) (F32.of_Z 1) = S754_finite false M E.
Proof.
  intros DM HE.
  change (F32.of_Z 1) with (S754_finite false 8388608%positive (-23)).
  pose proof (digits2_bounds M) as BM. rewrite DM in BM.
  destruct (div_canonical M 8388608%positive E (-23) DM eq_refl ltac:(lia))
    as (M' & k & ER & Hk & HM & ([L U] & TU & TL & B)).
  unfold F32.div, F32.prec, F32.emax. rewrite ER.
  change (2 ^ (24 - 1)) with 8388608 in *.
  change (2 ^ 23) with 8388608 in *. change (2 ^ 24) with 16777216 in *.
  assert (Hk' : k = 0 \/ k = 1 \/ k = 2) by lia.
  destruct Hk' as [-> | [-> | ->]].
  - exfalso. change (2 ^ 0) with 1 in *. lia.
  - change (2 ^ 1) with 2 in *.
    assert (EM : M' = M) by lia. subst M'.
    f_equal. lia.
  - exfalso. change (2 ^ 2) with 4 in *. lia.
Qed.

(** X9 - [calcMovingAverage] after [calcPeriodRatio]: the first period
    ratio folded into the average, which starts at 0 with count 0, becomes
    the average as it is, bit for bit, and the count becomes 1. *)
Theorem first_sample_is_average (currentT onT periodT : Z) :
  0 <= periodT -> periodT <= onT -> onT <= currentT -> periodT < currentT ->
  currentT - periodT < 2 ^ 24 -> currentT < 2 ^ 32 ->
  calcMovingAverage (F32.of_Z 0) (calcPeriodRatio currentT onT periodT) 0 =
  (calcPeriodRatio currentT onT periodT, 1).
Proof.
  intros Hp Hpo Hoc Hlt Hspan Hmax.
  rewrite calcPeriodRatio_plain by lia.
  rewrite calcMovingAverage_no_overflow by (unfold AVR.int_range; lia).
  cbv zeta. change (if 0 <? maxN then 0 + 1 else 0) with 1.
  change (F32.mul (F32.of_Z 0) (F32.of_Z (1 - 1))) with F32.zero.
  f_equal.
  destruct (Z.eq_dec (currentT - onT) 0) as [E0 | N0].
  - rewrite E0.
    destruct (of_Z_pos_finite (currentT - periodT) ltac:(lia)) as (m & e & ->).
    reflexivity.
  - destruct (quotient_rounded (currentT - onT) (currentT - periodT)
                ltac:(lia) ltac:(lia)) as (M & E & -> & HE & HM & _).
    change (F32.add F32.zero (S754_finite false M E)) with (S754_finite false M E).
    apply div_by_one; [ apply digits2_unique; exact HM | lia ].
Qed.

Lemma first_sample_is_average_witness :
  calcMovingAverage (F32.of_Z 0) (calcPeriodRatio 1000 900 800) 0 =
  (calcPeriodRatio 1000 900 800, 1).
Proof.
  apply (first_sample_is_average 1000 900 800); lia.
Defined.

(** ** The first period *)

Lemma reads_periods (i : Inputs) (g : Globals) :
  let v := fst ((readClock i ;; readSensors i)%stmt g) in
  currentTime v = now i /\
  onPeriodStart v =
    (if (onPeriodStart g =? 0) && RunState_eqb (runState g) Running
     then now i else onPeriodStart g) /\
  totPeriodStart v = (if totPeriodStart g =? 0 then now i else totPeriodStart g).
Proof.
  unfold_stmt. cbn.
  destruct ((onPeriodStart g =? 0) && RunState_eqb (runState g) Running); cbn;
    destruct (kitchenSensorInput i); cbn;
    destruct (SSkitchen g); cbn;
    destruct (totPeriodStart g =? 0); cbn; repeat split.
Qed.

(** X10 - [setup] and the first pass of [loop] after a start in [Running]:
    [setup] leaves both period starts at 0, the pass sets both to its clock
    and divides 0 by 0.  The ratio is NaN, no comparison with it holds and,
    with all inputs LOW, the fan keeps running whatever the slider and the
    enable button do. *)
Theorem first_pass_after_running_start (pct : Z) (p : Panel) (i : Inputs) :
  allQuiet i ->
  let r := loopPass p i (afterSetup pct LOW LOW LOW LOW) in
  runState (globals (fst r)) = Running /\
  snd r = [] /\
  relayControlPin (globals (fst r)) = LOW /\
  onPeriodStart (globals (fst r)) = now i /\
  totPeriodStart (globals (fst r)) = now i /\
  actualRatio (globals (fst r)) = F32.nan.
Proof.
  intros Hq. cbv zeta. unfold loopPass. cbv zeta. rewrite controlCycle_split.
  set (s0 := afterSetup pct LOW LOW LOW LOW).
  assert (B : runState (globals s0) = Running /\ relayControlPin (globals s0) = LOW /\
              onPeriodStart (globals s0) = 0 /\ totPeriodStart (globals s0) = 0)
    by (repeat split).
  destruct B as (B1 & B2 & B3 & B4).
  assert (P : runState (globals (readPanel p s0)) = Running /\
              relayControlPin (globals (readPanel p s0)) = LOW /\
              onPeriodStart (globals (readPanel p s0)) = 0 /\
              totPeriodStart (globals (readPanel p s0)) = 0).
  { unfold readPanel. cbv zeta.
    destruct (negb (desiredPercent s0 =? sliderValue p)), (enablePressed p);
      cbn; repeat split. }
  destruct P as (P1 & P2 & P3 & P4).
  destruct (reads_frame i (globals (readPanel p s0))) as (_ & R1 & R2 & _).
  destruct (reads_periods i (globals (readPanel p s0))) as (Rt & Ro & Rp).
  pose proof (quiet_no_off_request i (globals (readPanel p s0)) Hq) as Hoff.
  set (v := fst ((readClock i ;; readSensors i)%stmt (globals (readPanel p s0)))) in *.
  rewrite P3, P1 in Ro. rewrite P4 in Rp. cbn in Ro, Rp.
  assert (Hv : runState v = Running) by congruence.
  rewrite (fanSwitch_Running v Hv). cbv zeta.
  rewrite Hoff, Rt, Ro, Rp.
  assert (EN : calcPeriodRatio (now i) (now i) (now i) = F32.nan).
  { unfold calcPeriodRatio. rewrite Z.gtb_ltb, Z.ltb_irrefl.
    unfold AVR.usub. rewrite Z.sub_diag. reflexivity. }
  rewrite EN.
  replace (F32.gtb F32.nan (desiredRatio v)) with false
    by (unfold F32.gtb, F32.ltb, F32.nan; destruct (desiredRatio v); reflexivity).
  rewrite andb_false_r. cbn.
  repeat split; congruence.
Qed.

Lemma first_pass_after_running_start_witness :
  let r := loopPass (mkPanel 30 true) quietInputs (afterSetup 30 LOW LOW LOW LOW) in
  runState (globals (fst r)) = Running /\
  snd r = [] /\
  relayControlPin (globals (fst r)) = LOW /\
  onPeriodStart (globals (fst r)) = now quietInputs /\
  totPeriodStart (globals (fst r)) = now quietInputs /\
  actualRatio (globals (fst r)) = F32.nan.
Proof.
  apply (first_pass_after_running_start 30 (mkPanel 30 true) quietInputs).
  repeat split.
Defined.

(** X11 - [loop], case [Running]: a period in which the fan has run
    throughout, shorter than 2^24 seconds, counts as 100 percent.  With
    adjustment enabled, a desired ratio below 1 and all inputs LOW, the pass
    leaves [Running] for [notRunningAdjusting] without writing the relay. *)
Theorem full_period_is_over_target (i : Inputs) (g : Globals) :
  runState g = Running ->
  onPeriodStart g = totPeriodStart g ->
  0 < totPeriodStart g -> totPeriodStart g < now i ->
  now i - totPeriodStart g < 2 ^ 24 -> now i < 2 ^ 32 ->
  allQuiet i ->
  adjustmentEnabled g = true ->
  F32.ltb (desiredRatio g) (F32.of_Z 1) = true ->
  let r := controlCycle i g in
  runState (fst r) = notRunningAdjusting /\
  actualRatio (fst r) = F32.of_Z 1 /\
  snd r = [].
Proof.
  intros Hst Heq Hpos Hlt Hspan Hmax Hq Hadj Hd. cbv zeta.
  rewrite controlCycle_split.
  destruct (reads_frame i g) as (_ & R1 & _ & _ & _ & _ & Ra & Rd).
  destruct (reads_periods i g) as (Rt & Ro & Rp).
  pose proof (quiet_no_off_request i g Hq) as Hoff.
  set (v := fst ((readClock i ;; readSensors i)%stmt g)) in *.
  assert (E0 : (totPeriodStart g =? 0) = false) by (apply Z.eqb_neq; lia).
  rewrite Heq, E0 in Ro. rewrite E0 in Rp. cbn in Ro.
  assert (Hv : runState v = Running) by congruence.
  rewrite (fanSwitch_Running v Hv). cbv zeta.
  rewrite Hoff, Rt, Ro, Rp, Ra, Rd, Hadj.
  rewrite calcPeriodRatio_plain, div_self by lia.
  unfold F32.gtb. rewrite Hd. cbn. repeat split.
Qed.

Lemma full_period_is_over_target_witness :
  let g := mkGlobals true 950 0 false false false false true ratio30
             F32.zero F32.zero 0 Running 800 800 LOW in
  let r := controlCycle quietInputs g in
  runState (fst r) = notRunningAdjusting /\
  actualRatio (fst r) = F32.of_Z 1 /\
  snd r = [].
Proof.
  apply (full_period_is_over_target quietInputs
           (mkGlobals true 950 0 false false false false true ratio30
              F32.zero F32.zero 0 Running 800 800 LOW)).
  - reflexivity.
  - reflexivity.
  - reflexivity.
  - reflexivity.
  - reflexivity.
  - reflexivity.
  - repeat split.
  - reflexivity.
  - vm_compute. reflexivity.
Defined.

(** ** A door that stays open *)

Lemma door_stays_armed (t0 : Z) (passes : list Inputs) :
  Forall (fun i => kitchenSensorInput i = HIGH) passes ->
  forall g, SSkitchen g = true -> doorComplete g = t0 + doorDelay ->
  Forall (fun v => doorSettled v = (currentTime v >? t0 + doorDelay))
         (switchViews passes g).
Proof.
  intros Hall. induction Hall as [ | i rest Hi _ IH]; intros g Hk Hd.
  - constructor.
  - cbn [switchViews].
    destruct (read_door i g) as (Rt & Rk & Rd).
    set (v := fst ((readClock i ;; readSensors i)%stmt g)) in *.
    rewrite Hi, Hk in Rd. rewrite Hi in Rk. cbn in Rk, Rd.
    constructor.
    + unfold doorSettled. rewrite Rk, Rd, Hd. reflexivity.
    + destruct (fanSwitch_door_frame v) as [F1 F2].
      apply IH; congruence.
Qed.

(** X12 - the door delay of [loop]: a door found closed before, open at
    the clock [t0] and open in every pass after, is seen by the [switch] in
    exactly the passes whose clock is past [t0 + doorDelay]. *)
Theorem held_open_door_seen_after_delay (g : Globals) (first : Inputs) (rest : list Inputs) :
  SSkitchen g = false ->
  kitchenSensorInput first = HIGH ->
  Forall (fun i => kitchenSensorInput i = HIGH) rest ->
  0 <= now first -> now first + doorDelay < 2 ^ 32 ->
  Forall (fun v => doorSettled v = (currentTime v >? now first + doorDelay))
         (switchViews (first :: rest) g).
Proof.
  intros Hk Hf Hrest H0 Hmax. cbn [switchViews].
  destruct (read_door first g) as (Rt & Rk & Rd).
  set (v := fst ((readClock first ;; readSensors first)%stmt g)) in *.
  rewrite Hf, Hk in Rd. rewrite Hf in Rk. cbn in Rk, Rd.
  assert (Ed : doorComplete v = now first + doorDelay).
  { rewrite Rd. unfold AVR.uadd. apply Z.mod_small. unfold doorDelay in *. lia. }
  constructor.
  - unfold doorSettled. rewrite Rk, Ed. reflexivity.
  - destruct (fanSwitch_door_frame v) as [F1 F2].
    apply door_stays_armed; congruence.
Qed.

Lemma held_open_door_seen_after_delay_witness :
  Forall (fun v => doorSettled v = (currentTime v >? 1000 + doorDelay))
         (switchViews [mkInputs 1000 LOW LOW HIGH LOW; mkInputs 1120 LOW LOW HIGH LOW;
                       mkInputs 1121 LOW LOW HIGH LOW] quietRunning).
Proof.
  apply (held_open_door_seen_after_delay quietRunning (mkInputs 1000 LOW LOW HIGH LOW)
           [mkInputs 1120 LOW LOW HIGH LOW; mkInputs 1121 LOW LOW HIGH LOW]).
  - reflexivity.
  - reflexivity.
  - repeat constructor.
  - cbn. lia.
  - cbn. unfold doorDelay. lia.
Defined.

(** ** The settings *)

Lemma fanSwitch_settings (g : Globals) :
  desiredRatio (fst (fanSwitch g)) = desiredRatio g /\
  adjustmentEnabled (fst (fanSwitch g)) = adjustmentEnabled g.
Proof.
  destruct (runState g) eqn:Hst.
  - rewrite (fanSwitch_notRunning g Hst). destruct (onRequested g); cbn; auto.
  - rewrite (fanSwitch_Running g Hst). cbv zeta.
    destruct (offRequested g); destruct (_ && _); cbn; auto.
  - rewrite (fanSwitch_RunningAdjusting g Hst). cbv zeta.
    destruct (_ || _); cbn; auto.
  - rewrite (fanSwitch_notRunningAdjusting g Hst).
    destruct (offRequested g); cbn; auto.
Qed.

Lemma loopPass_settings (p : Panel) (i : Inputs) (s : Sketch) :
  let s' := fst (loopPass p i s) in
  desiredPercent s' = sliderValue p /\
  (desiredRatio (globals s) = percentRatio (desiredPercent s) ->
   desiredRatio (globals s') = percentRatio (desiredPercent s')) /\
  adjustmentEnabled (globals s') =
    xorb (enablePressed p) (adjustmentEnabled (globals s)).
Proof.
  cbv zeta. unfold loopPass. cbv zeta. rewrite controlCycle_split.
  destruct (reads_frame i (globals (readPanel p s)))
    as (_ & _ & _ & _ & _ & _ & Ra & Rd).
  set (v := fst ((readClock i ;; readSensors i)%stmt (globals (readPanel p s)))) in *.
  destruct (fanSwitch_settings v) as (Fd & Fa).
  destruct (fanSwitch v) as [g' w]. cbn [fst snd globals desiredPercent] in *.
  rewrite Fd, Fa, Rd, Ra. unfold readPanel. cbv zeta.
  destruct (Z.eqb_spec (desiredPercent s) (sliderValue p)) as [E | E];
    destruct (enablePressed p); cbn; rewrite ?E;
    repeat split; try congruence;
    destruct (adjustmentEnabled (globals s)); reflexivity.
Qed.

Lemma last_cons {A : Type} (l : list A) :
  forall x d, last (x :: l) d = last l x.
Proof.
  induction l as [ | a l IH ]; intros x d; [ reflexivity | ].
  change (last (x :: a :: l) d) with (last (a :: l) d).
  rewrite (IH a d), (IH a x). reflexivity.
Qed.

(** X17 - [setup] and the slider and button handling of [loop]: at the end
    of [setup] and of every pass, [desiredRatio] is [desiredPercent / 100.0],
    [desiredPercent] is what the slider showed in the last pass (the stored
    percent before the first), and the enable flag, off at the start, has
    flipped once for every pass that found the button pressed.  The [switch]
    changes none of the three. *)
Theorem settings_follow_panel
    (pct : Z) (b o k f : Level) (passes : list (Panel * Inputs)) :
  let s := runLoop passes (afterSetup pct b o k f) in
  desiredRatio (globals s) = percentRatio (desiredPercent s) /\
  desiredPercent s = last (map (fun pi => sliderValue (fst pi)) passes) pct /\
  adjustmentEnabled (globals s) =
    fold_left xorb (map (fun pi => enablePressed (fst pi)) passes) false.
Proof.
  cbv zeta.
  assert (H0 : desiredRatio (globals (afterSetup pct b o k f)) =
               percentRatio (desiredPercent (afterSetup pct b o k f)) /\
               desiredPercent (afterSetup pct b o k f) = pct /\
               adjustmentEnabled (globals (afterSetup pct b o k f)) = false).
  { unfold afterSetup, setup. unfold_stmt. cbn.
    destruct (is_LOW b && is_LOW o && is_LOW k && is_LOW f); cbn; repeat split. }
  revert H0. generalize (afterSetup pct b o k f). generalize false. revert pct.
  induction passes as [ | [p i] rest IH ]; intros pct e s (H1 & H2 & H3);
    cbn [runLoop map fold_left].
  - repeat split; assumption.
  - destruct (loopPass_settings p i s) as (L1 & L2 & L3). cbv zeta in *.
    specialize (IH (sliderValue p) (xorb e (enablePressed p)) (fst (loopPass p i s))).
    destruct IH as (I1 & I2 & I3).
    { split; [ apply L2; exact H1 | ]. split; [ exact L1 | ].
      rewrite L3, H3. apply xorb_comm. }
    cbn [fst]. split; [ exact I1 | ]. split; [ | exact I3 ].
    rewrite I2. symmetry. apply last_cons.
Qed.

(** * Logging *)

Section Logging.

Variable Card : Type.
Variable appendSD : Chunk -> Card -> Z * Card.
Variable writeSD : bool -> Card -> Card.
Variable startFile : Z -> Card -> Card.

(** A run of guarded appends goes through a prefix of its chunks: it stops
    appending at the first failure, and only [offset] changes. *)
Lemma guarded_appends (cs : list Chunk) (k : LogStmt Card) :
  forall (l : Logger) (card : Card),
  exists (j : nat) (l' : Logger) (card' : Card),
    (j <= length cs)%nat /\
    fold_right (fun c s => lseq Card (appendIfOk Card appendSD c) s) k cs (l, card) =
      (fst (k (l', card')), firstn j cs ++ snd (k (l', card'))) /\
    logData l' = logData l /\ firstTime l' = firstTime l /\
    loggedTime l' = loggedTime l /\ logCount l' = logCount l /\
    (offset l = appendFailed -> j = 0%nat /\ l' = l /\ card' = card) /\
    ((j < length cs)%nat -> offset l' = appendFailed) /\
    (offset l <> appendFailed -> cs <> [] -> (0 < j)%nat).
Proof.
  induction cs as [ | c cs IH]; intros l card.
  - exists 0%nat, l, card. cbn [fold_right length firstn app].
    repeat split; try lia; try congruence.
    destruct (k (l, card)); reflexivity.
  - cbn [fold_right].
    set (rest := fold_right (fun c s => lseq Card (appendIfOk Card appendSD c) s) k cs) in *.
    unfold lseq, appendIfOk, lif, lskip. cbn [fst].
    destruct (Z.eqb_spec (offset l) appendFailed) as [Ef | Eok]; cbn [negb].
    + destruct (IH l card) as (j & l' & card' & Hj & Hrun & H1 & H2 & H3 & H4 & Hf & Hlt & Hpos).
      destruct (Hf Ef) as (-> & -> & ->).
      exists 0%nat, l, card. rewrite Hrun. cbn [firstn app length].
      repeat split; try lia; try congruence.
    + unfold append. cbn [fst snd].
      destruct (appendSD c card) as [r card1].
      destruct (IH (set_offset r l) card1)
        as (j & l' & card' & Hj & Hrun & H1 & H2 & H3 & H4 & Hf & Hlt & Hpos).
      exists (S j), l', card'. rewrite Hrun. cbn [firstn app length].
      repeat split; try lia; try congruence; try assumption.
Qed.

Lemma failed_not_zero : 0 <> appendFailed.
Proof. discriminate. Qed.

Lemma stopOnError_run (l : Logger) (card : Card) :
  stopOnError Card (l, card) =
  (((if offset l =? appendFailed then set_offset 0 (set_logData false l) else l), card), []).
Proof.
  unfold stopOnError, lif, lseq, lassign, lskip. cbn [fst snd].
  destruct (offset l =? appendFailed); reflexivity.
Qed.

(** The header line: what [writeHeadersToFile] appends and leaves. *)
Lemma header_run (t : Z) (l : Logger) (card : Card) :
  let r := writeHeadersToFile Card appendSD startFile t (l, card) in
  let l' := fst (fst r) in
  firstTime l' = firstTime l /\ loggedTime l' = loggedTime l /\
  logCount l' = logCount l /\ offset l' <> appendFailed /\
  ((snd r = headerChunks /\ logData l' = logData l) \/
   ((exists k, (1 <= k <= 6)%nat /\ snd r = firstn k headerChunks) /\
    logData l' = false /\ offset l' = 0)).
Proof.
  cbv zeta.
  change (writeHeadersToFile Card appendSD startFile t (l, card))
    with (lseq Card (fun st => ((fst st, startFile t (snd st)), []))
           (lseq Card (append Card appendSD (HeaderPart 1))
              (fold_right (fun c s => lseq Card (appendIfOk Card appendSD c) s)
                 (stopOnError Card)
                 [HeaderPart 2; HeaderPart 3; HeaderPart 4; HeaderPart 5; HeaderPart 6]))
           (l, card)).
  set (chain := fold_right _ _ _).
  unfold lseq, append. cbn [fst snd].
  destruct (appendSD (HeaderPart 1) (startFile t card)) as [r card1].
  destruct (guarded_appends
              [HeaderPart 2; HeaderPart 3; HeaderPart 4; HeaderPart 5; HeaderPart 6]
              (stopOnError Card) (set_offset r l) card1)
    as (j & l' & card' & Hj & Hrun & H1 & H2 & H3 & H4 & Hf & Hlt & Hpos).
  fold chain in Hrun. rewrite Hrun. rewrite stopOnError_run.
  cbn [fst snd app length] in *. rewrite app_nil_r.
  simpl in H1, H2, H3, H4.
  destruct (Z.eqb_spec (offset l') appendFailed) as [Ef | Eok].
  - cbn. split; [ congruence | ]. split; [ congruence | ]. split; [ congruence | ].
    split; [ exact failed_not_zero | ].
    right. split; [ | split; [ reflexivity | reflexivity ] ].
    exists (S j). split; [ lia | reflexivity ].
  - split; [ congruence | ]. split; [ congruence | ]. split; [ congruence | ].
    split; [ exact Eok | ].
    left. assert (j = 5%nat) by (destruct (Nat.eq_dec j 5); [ assumption | exfalso; apply Eok, Hlt; lia ]).
    subst j. split; [ reflexivity | congruence ].
Qed.

(** A record: what [writeRecord] appends and leaves. *)
Lemma writeRecord_run (l : Logger) (card : Card) :
  let r := writeRecord Card appendSD (l, card) in
  let l' := fst (fst r) in
  logData l' = logData l /\ firstTime l' = firstTime l /\
  loggedTime l' = loggedTime l /\
  ((snd r = recordChunks /\ offset l' <> appendFailed /\
    logCount l' = AVR.uadd (logCount l) 1) \/
   ((exists k, (1 <= k <= 9)%nat /\ snd r = firstn k recordChunks) /\
    offset l' = appendFailed /\ logCount l' = logCount l)).
Proof.
  cbv zeta.
  set (countUp := lif Card (fun l => negb (offset l =? appendFailed))
                   (lassign Card (fun l => set_logCount (AVR.uadd (logCount l) 1) l))
                   (lskip Card)).
  change (writeRecord Card appendSD (l, card))
    with (lseq Card (append Card appendSD RecordStamp)
           (lseq Card
              (fold_right (fun c s => lseq Card (appendIfOk Card appendSD c) s)
                 (lskip Card)
                 [RecordTemp 0; RecordTemp 1; RecordTemp 2; RecordTemp 3])
              (fold_right (fun c s => lseq Card (appendIfOk Card appendSD c) s)
                 countUp
                 [RecordAverage; RecordDesired; RecordActual; RecordSwitches]))
           (l, card)).
  set (temps := fold_right _ (lskip Card) _).
  set (rest := fold_right _ countUp _).
  destruct (appendSD RecordStamp card) as [r card1] eqn:Eap.
  destruct (guarded_appends
              [RecordTemp 0; RecordTemp 1; RecordTemp 2; RecordTemp 3]
              (lskip Card) (set_offset r l) card1)
    as (jA & lA & cardA & HjA & HrunA & A1 & A2 & A3 & A4 & _ & HltA & _).
  fold temps in HrunA.
  destruct (guarded_appends
              [RecordAverage; RecordDesired; RecordActual; RecordSwitches]
              countUp lA cardA)
    as (jB & lB & cardB & HjB & HrunB & B1 & B2 & B3 & B4 & HfB & HltB & _).
  fold rest in HrunB.
  simpl in A1, A2, A3, A4. cbn [length] in *.
  assert (lseq Card (append Card appendSD RecordStamp) (lseq Card temps rest) (l, card) =
          (fst (countUp (lB, cardB)),
           RecordStamp ::
             firstn jA [RecordTemp 0; RecordTemp 1; RecordTemp 2; RecordTemp 3] ++
             firstn jB [RecordAverage; RecordDesired; RecordActual; RecordSwitches] ++
             snd (countUp (lB, cardB)))) as ->.
  { unfold lseq, append. cbn [fst snd]. rewrite Eap, HrunA.
    unfold lskip at 1 2. cbn [fst snd]. rewrite HrunB, app_nil_r. reflexivity. }
  unfold countUp, lif, lassign, lskip. cbn [fst snd].
  destruct (Z.eqb_spec (offset lB) appendFailed) as [Ef | Eok];
    cbn [negb fst snd]; rewrite ?app_nil_r;
    (split; [ cbn; congruence | ]); (split; [ cbn; congruence | ]);
    (split; [ cbn; congruence | ]).
  - right. split; [ | split; [ exact Ef | congruence ] ].
    destruct (Z.eq_dec (offset lA) appendFailed) as [EA | EA].
    + destruct (HfB EA) as (-> & _ & _).
      exists (S jA). split; [ lia | ].
      cbn [firstn app]. rewrite app_nil_r.
      do 5 (destruct jA as [ | jA ]; [ reflexivity | ]). lia.
    + assert (jA = 4%nat) as ->
        by (destruct (Nat.eq_dec jA 4); [ assumption | exfalso; apply EA, HltA; lia ]).
      exists (5 + jB)%nat. split; [ lia | ].
      do 5 (destruct jB as [ | jB ]; [ reflexivity | ]). lia.
  - left.
    assert (jB = 4%nat) as ->
      by (destruct (Nat.eq_dec jB 4); [ assumption | exfalso; apply Eok, HltB; lia ]).
    assert (offset lA <> appendFailed) as EA.
    { intros EA. destruct (HfB EA) as (E0 & _ & _). discriminate E0. }
    assert (jA = 4%nat) as ->
      by (destruct (Nat.eq_dec jA 4); [ assumption | exfalso; apply EA, HltA; lia ]).
    split; [ reflexivity | ]. split; [ exact Eok | ].
    cbn. congruence.
Qed.

(** The logging part of a pass: no record, a whole record, or a record cut
    short by a failed append. *)
Lemma loopLog_run (t : Z) (l : Logger) (card : Card) :
  let r := loopLog Card appendSD t (l, card) in
  let l' := fst (fst r) in
  offset l' <> appendFailed /\
  ((snd r = [] /\ logCount l' = logCount l /\
    ((firstTime l' = firstTime l /\ loggedTime l' = loggedTime l) \/
     (firstTime l = true /\ firstTime l' = false /\ loggedTime l' = t))) \/
   (firstTime l = false /\ logData l = true /\
    (t >=? AVR.uadd (loggedTime l) interval) = true /\
    firstTime l' = false /\ loggedTime l' = t /\
    ((snd r = recordChunks /\ logCount l' = AVR.uadd (logCount l) 1 /\
      logData l' = true) \/
     ((exists k, (1 <= k <= 9)%nat /\ snd r = firstn k recordChunks) /\
      logCount l' = logCount l /\ logData l' = false)))).
Proof.
  cbv zeta. remember (loopLog Card appendSD t (l, card)) as res eqn:Hres.
  unfold loopLog, lseq, lif in Hres. cbn [fst snd] in Hres.
  destruct (((t >=? AVR.uadd (loggedTime l) interval) || firstTime l) &&
            logData l && negb (offset l =? appendFailed)) eqn:Ec.
  - apply andb_prop in Ec. destruct Ec as [Ec Eoff].
    apply andb_prop in Ec. destruct Ec as [Edue Elog].
    apply negb_true_iff in Eoff.
    unfold lassign in Hres. cbn [fst snd firstTime set_loggedTime] in Hres.
    destruct (firstTime l) eqn:Eft; cbn [negb] in Hres.
    + rewrite stopOnError_run in Hres.
      cbn [offset set_firstTime set_loggedTime app] in Hres.
      rewrite Eoff in Hres. subst res. cbn.
      split; [ apply Z.eqb_neq; exact Eoff | ].
      left. split; [ reflexivity | ]. split; [ reflexivity | ].
      right. repeat split.
    + rewrite orb_false_r in Edue.
      pose proof (writeRecord_run (set_loggedTime t l) card) as Hw.
      cbv zeta in Hw.
      destruct (writeRecord Card appendSD (set_loggedTime t l, card))
        as [[lw cardw] tr].
      cbn [fst snd] in Hw. cbn [logData firstTime loggedTime logCount set_loggedTime] in Hw.
      destruct Hw as (W1 & W2 & W3 & Hw).
      rewrite stopOnError_run in Hres. rewrite app_nil_r in Hres.
      destruct Hw as [(Htr & Hok & Hcnt) | (Htr & Hbad & Hcnt)].
      * apply Z.eqb_neq in Hok. rewrite Hok in Hres. apply Z.eqb_neq in Hok.
        subst res. cbn [fst snd app].
        split; [ exact Hok | ].
        right. repeat split; try assumption; try congruence.
        left. repeat split; congruence.
      * rewrite Hbad, Z.eqb_refl in Hres. subst res. cbn.
        split; [ exact failed_not_zero | ].
        right. repeat split; try assumption; try congruence.
        right. repeat split; try assumption.
  - unfold lskip in Hres. rewrite stopOnError_run in Hres. subst res. cbn [fst snd app].
    destruct (Z.eqb_spec (offset l) appendFailed) as [Ef | Eok]; cbn.
    + split; [ exact failed_not_zero | ].
      left. split; [ reflexivity | ]. split; [ reflexivity | ].
      left. split; reflexivity.
    + split; [ exact Eok | ].
      left. split; [ reflexivity | ]. split; [ reflexivity | ].
      left. split; reflexivity.
Qed.

Lemma existsb_firstn_false {A : Type} (f : A -> bool) (k : nat) (xs : list A) :
  existsb f xs = false -> existsb f (firstn k xs) = false.
Proof.
  revert k. induction xs as [ | x xs IH ]; intros k H.
  - destruct k; reflexivity.
  - destruct k; [ reflexivity | ]. cbn in *.
    apply orb_false_iff in H. destruct H as [Hx Hxs].
    rewrite Hx. cbn. apply IH. exact Hxs.
Qed.

(** The toggle button leaves the timing of the records alone and appends no
    part of a record. *)
Lemma toggleLog_frame (t : Z) (l : Logger) (card : Card) :
  let r := toggleLog Card appendSD writeSD startFile t (l, card) in
  let l' := fst (fst r) in
  firstTime l' = firstTime l /\ loggedTime l' = loggedTime l /\
  logCount l' = logCount l /\ existsb isStamp (snd r) = false.
Proof.
  cbv zeta.
  remember (toggleLog Card appendSD writeSD startFile t (l, card)) as res eqn:Hres.
  unfold toggleLog, lseq, lif in Hres. cbn [fst snd] in Hres.
  destruct (logData l) eqn:El.
  - unfold lassign, saveLogStatus in Hres. cbn in Hres. subst res. cbn. repeat split.
  - unfold lassign in Hres. cbn [fst snd] in Hres.
    pose proof (header_run t (set_logData true l) card) as Hh. cbv zeta in Hh.
    destruct (writeHeadersToFile Card appendSD startFile t (set_logData true l, card))
      as [[lh cardh] tr].
    cbn [fst snd] in Hh. cbn [logData firstTime loggedTime logCount set_logData] in Hh.
    destruct Hh as (H1 & H2 & H3 & _ & Hh).
    unfold saveLogStatus in Hres. cbn [fst snd app] in Hres. rewrite app_nil_r in Hres.
    subst res. cbn [fst snd].
    split; [ exact H1 | ]. split; [ exact H2 | ]. split; [ exact H3 | ].
    destruct Hh as [(-> & _) | ((k & _ & ->) & _)].
    + reflexivity.
    + apply existsb_firstn_false. reflexivity.
Qed.

Lemma logPass_step (pressed : option Z) (t : Z) (l : Logger) (card : Card) :
  let r := logPass Card appendSD writeSD startFile pressed t (l, card) in
  let l' := fst (fst r) in
  (existsb isStamp (snd r) = true /\ firstTime l = false /\
   (t >=? AVR.uadd (loggedTime l) interval) = true /\
   loggedTime l' = t /\ firstTime l' = false) \/
  (existsb isStamp (snd r) = false /\
   ((firstTime l' = firstTime l /\ loggedTime l' = loggedTime l) \/
    (firstTime l = true /\ firstTime l' = false /\ loggedTime l' = t))).
Proof.
  cbv zeta.
  remember (logPass Card appendSD writeSD startFile pressed t (l, card)) as res eqn:Hres.
  unfold logPass, lseq in Hres.
  assert (exists l1 card1 tr1,
            match pressed with
            | Some tn => toggleLog Card appendSD writeSD startFile tn
            | None => lskip Card
            end (l, card) = ((l1, card1), tr1) /\
            firstTime l1 = firstTime l /\ loggedTime l1 = loggedTime l /\
            existsb isStamp tr1 = false) as (l1 & card1 & tr1 & E1 & F1 & F2 & F3).
  { destruct pressed as [ tn | ].
    - pose proof (toggleLog_frame tn l card) as Hf. cbv zeta in Hf.
      destruct (toggleLog Card appendSD writeSD startFile tn (l, card))
        as [[l1 card1] tr1].
      cbn [fst snd] in Hf. destruct Hf as (F1 & F2 & _ & F3).
      exists l1, card1, tr1. repeat split; assumption.
    - exists l, card, []. repeat split. }
  rewrite E1 in Hres.
  pose proof (loopLog_run t l1 card1) as Hl. cbv zeta in Hl.
  destruct (loopLog Card appendSD t (l1, card1)) as [[l2 card2] tr2].
  subst res. cbn [fst snd] in *. rewrite existsb_app, F3. cbn [orb].
  rewrite F1, F2 in Hl.
  destruct Hl as (_ & [(-> & _ & Hl) | (Hft & _ & Hdue & Hft' & Hlt' & Hl)]).
  - right. split; [ reflexivity | exact Hl ].
  - left. split; [ | repeat split; assumption ].
    destruct Hl as [(-> & _) | ((k & Hk & ->) & _)]; [ reflexivity | ].
    destruct k as [ | k ]; [ lia | reflexivity ].
Qed.

Lemma spaced_cons (t : Z) (xs : list Z) :
  (forall x, In x xs -> t + interval <= x) -> spaced xs -> spaced (t :: xs).
Proof.
  intros Hall Hs. destruct xs as [ | b xs ]; [ exact I | ].
  split; [ apply Hall; left; reflexivity | exact Hs ].
Qed.

Lemma records_spaced_from (passes : list (option Z * Z)) :
  forall (lo : Z) (l : Logger) (card : Card),
    0 <= lo ->
    firstTime l = true \/ 0 <= loggedTime l <= lo ->
    ascending lo passes ->
    spaced (recordTimes Card appendSD writeSD startFile passes (l, card)) /\
    (firstTime l = false ->
     forall x, In x (recordTimes Card appendSD writeSD startFile passes (l, card)) ->
               loggedTime l + interval <= x).
Proof.
  induction passes as [ | [pressed t] rest IH ]; intros lo l card Hlo Hst Hasc.
  - split; [ exact I | intros _ x [] ].
  - destruct Hasc as (Hle & Hroom & Hasc).
    cbn [recordTimes]. cbv zeta.
    pose proof (logPass_step pressed t l card) as Hp. cbv zeta in Hp.
    destruct (logPass Card appendSD writeSD startFile pressed t (l, card))
      as [[l' card'] tr].
    cbn [fst snd] in *.
    assert (0 <= t) as Ht by lia.
    destruct Hp as [(-> & Hft & Hdue & Hlt' & Hft') | (-> & Hp)].
    + destruct Hst as [Hst | Hst]; [ congruence | ].
      assert (loggedTime l + interval <= t) as Hgap.
      { unfold AVR.uadd in Hdue. unfold interval in *.
        rewrite Z.mod_small in Hdue by lia. lia. }
      destruct (IH t l' card' Ht (or_intror (conj (eq_ind_r (fun v => 0 <= v) Ht Hlt')
                                                   (eq_ind_r (fun v => v <= t) (Z.le_refl t) Hlt')))
                   Hasc) as (Hs & Hall).
      specialize (Hall Hft'). rewrite Hlt' in Hall.
      split.
      * apply spaced_cons; assumption.
      * intros _ x [ <- | Hin ]; [ exact Hgap | ].
        specialize (Hall x Hin). unfold interval in *. lia.
    + destruct Hp as [(Eft & Elt) | (Hft & Hft' & Hlt')].
      * assert (firstTime l' = true \/ 0 <= loggedTime l' <= t) as Hst'.
        { destruct Hst as [Hst | Hst]; [ left; congruence | right; lia ]. }
        destruct (IH t l' card' Ht Hst' Hasc) as (Hs & Hall).
        split; [ exact Hs | ].
        intros Hf x Hin. rewrite <- Elt. apply Hall; [ congruence | exact Hin ].
      * assert (firstTime l' = true \/ 0 <= loggedTime l' <= t) as Hst'
          by (right; lia).
        destruct (IH t l' card' Ht Hst' Hasc) as (Hs & _).
        split; [ exact Hs | congruence ].
Qed.

(** While no append fails, a chain of guarded appends appends every chunk. *)
Lemma guarded_appends_ok (cs : list Chunk) (k : LogStmt Card) :
  (forall c card, fst (appendSD c card) <> appendFailed) ->
  forall (l : Logger) (card : Card),
    offset l <> appendFailed ->
    exists (l' : Logger) (card' : Card),
      fold_right (fun c s => lseq Card (appendIfOk Card appendSD c) s) k cs (l, card) =
        (fst (k (l', card')), cs ++ snd (k (l', card'))) /\
      offset l' <> appendFailed /\ logCount l' = logCount l.
Proof.
  intros Hok. induction cs as [ | c cs IH ]; intros l card Hl.
  - exists l, card. cbn. split; [ destruct (k (l, card)); reflexivity | ].
    split; [ exact Hl | reflexivity ].
  - cbn [fold_right]. set (rest := fold_right _ k cs) in *.
    unfold lseq, appendIfOk, lif, append. cbn [fst snd].
    apply Z.eqb_neq in Hl. rewrite Hl. cbn [negb].
    pose proof (Hok c card) as Hc.
    destruct (appendSD c card) as [r card1]. cbn [fst] in Hc.
    destruct (IH (set_offset r l) card1 Hc) as (l' & card' & Hrun & Ho & Hn).
    rewrite Hrun. exists l', card'.
    split; [ reflexivity | ]. split; [ exact Ho | exact Hn ].
Qed.

Lemma writeRecord_ok (l : Logger) (card : Card) :
  (forall c card0, fst (appendSD c card0) <> appendFailed) ->
  let r := writeRecord Card appendSD (l, card) in
  snd r = recordChunks /\ offset (fst (fst r)) <> appendFailed.
Proof.
  intros Hok. cbv zeta.
  set (countUp := lif Card (fun l => negb (offset l =? appendFailed))
                   (lassign Card (fun l => set_logCount (AVR.uadd (logCount l) 1) l))
                   (lskip Card)).
  change (writeRecord Card appendSD (l, card))
    with (lseq Card (append Card appendSD RecordStamp)
           (lseq Card
              (fold_right (fun c s => lseq Card (appendIfOk Card appendSD c) s)
                 (lskip Card)
                 [RecordTemp 0; RecordTemp 1; RecordTemp 2; RecordTemp 3])
              (fold_right (fun c s => lseq Card (appendIfOk Card appendSD c) s)
                 countUp
                 [RecordAverage; RecordDesired; RecordActual; RecordSwitches]))
           (l, card)).
  set (temps := fold_right _ (lskip Card) _).
  set (rest := fold_right _ countUp _).
  pose proof (Hok RecordStamp card) as H0.
  destruct (appendSD RecordStamp card) as [r card1] eqn:Eap. cbn [fst] in H0.
  destruct (guarded_appends_ok
              [RecordTemp 0; RecordTemp 1; RecordTemp 2; RecordTemp 3]
              (lskip Card) Hok (set_offset r l) card1 H0)
    as (lA & cardA & HrunA & HA & _).
  fold temps in HrunA.
  destruct (guarded_appends_ok
              [RecordAverage; RecordDesired; RecordActual; RecordSwitches]
              countUp Hok lA cardA HA)
    as (lB & cardB & HrunB & HB & _).
  fold rest in HrunB.
  assert (lseq Card (append Card appendSD RecordStamp) (lseq Card temps rest) (l, card) =
          (fst (countUp (lB, cardB)), recordChunks ++ snd (countUp (lB, cardB)))) as ->.
  { unfold lseq, append. cbn [fst snd]. rewrite Eap, HrunA.
    unfold lskip at 1 2. cbn [fst snd]. rewrite HrunB. reflexivity. }
  unfold countUp, lif, lassign, lskip. cbn [fst snd].
  apply Z.eqb_neq in HB. rewrite HB. apply Z.eqb_neq in HB. cbn [negb fst snd].
  split; [ apply app_nil_r | exact HB ].
Qed.

End Logging.

(** ** The toggle button *)

(** X13 - the toggle button of [loop], [writeHeadersToFile] and
    [saveLogStatus]: pressing the button while logging switches logging off
    and appends nothing.  Pressing it while not logging hands the card the
    six parts of the header line and switches logging on, or hands it the
    parts up to the first one whose append fails and leaves logging off.
    Either way the status written to the card last is the logging flag the
    sketch goes on with. *)
Theorem toggle_outcome (Card : Type)
  (appendSD : Chunk -> Card -> Z * Card) (writeSD : bool -> Card -> Card)
  (startFile : Z -> Card -> Card) (t : Z) (l : Logger) (card : Card) :
  let r := toggleLog Card appendSD writeSD startFile t (l, card) in
  let l' := fst (fst r) in
  (exists c0, snd (fst r) = writeSD (logData l') c0) /\
  (if logData l
   then snd r = [] /\ logData l' = false
   else (snd r = headerChunks /\ logData l' = true) \/
        ((exists k, (1 <= k <= 6)%nat /\ snd r = firstn k headerChunks) /\
         logData l' = false)).
Proof.
  cbv zeta.
  remember (toggleLog Card appendSD writeSD startFile t (l, card)) as res eqn:Hres.
  unfold toggleLog, lseq, lif in Hres. cbn [fst snd] in Hres.
  destruct (logData l) eqn:El.
  - unfold lassign, saveLogStatus in Hres. cbn in Hres. subst res. cbn.
    split; [ eexists; reflexivity | split; reflexivity ].
  - unfold lassign in Hres. cbn [fst snd] in Hres.
    pose proof (header_run Card appendSD startFile t (set_logData true l) card) as Hh. cbv zeta in Hh.
    destruct (writeHeadersToFile Card appendSD startFile t (set_logData true l, card))
      as [[lh cardh] tr].
    cbn [fst snd] in Hh. cbn [logData set_logData] in Hh.
    destruct Hh as (_ & _ & _ & _ & Hh).
    unfold saveLogStatus in Hres. cbn [fst snd app] in Hres. rewrite app_nil_r in Hres.
    subst res. cbn [fst snd].
    split; [ eexists; reflexivity | ].
    destruct Hh as [(Htr & Hlog) | (Htr & Hlog & _)].
    + left. split; assumption.
    + right. split; assumption.
Qed.

(** ** Records *)

(** X14 - the logging part of [loop]: a pass appends nothing and leaves
    [logCount] alone, or hands the card the nine chunks of a record in order
    and counts the record, or hands it the chunks up to the first one whose
    append fails, after which the record is not counted and logging is off.
    No pass ends with the failure mark -1 left in [offset]. *)
Theorem record_whole_or_logging_stops (Card : Type)
  (appendSD : Chunk -> Card -> Z * Card) (t : Z) (l : Logger) (card : Card) :
  let r := loopLog Card appendSD t (l, card) in
  let l' := fst (fst r) in
  offset l' <> appendFailed /\
  ((snd r = [] /\ logCount l' = logCount l) \/
   (snd r = recordChunks /\ logCount l' = AVR.uadd (logCount l) 1 /\
    logData l' = true) \/
   ((exists k, (1 <= k <= 9)%nat /\ snd r = firstn k recordChunks) /\
    logCount l' = logCount l /\ logData l' = false)).
Proof.
  cbv zeta. pose proof (loopLog_run Card appendSD t l card) as H. cbv zeta in H.
  destruct H as (Hoff & [(Htr & Hcnt & _) | (_ & _ & _ & _ & _ & H)]).
  - split; [ exact Hoff | ]. left. split; assumption.
  - split; [ exact Hoff | ]. right. exact H.
Qed.

(** X15 - the logging part of [loop]: with [firstTime] cleared, logging on,
    no failure mark in [offset] and the clock at or past
    [loggedTime + interval], a card that takes every append gets the nine
    chunks of a record in order; the record is counted, [loggedTime] becomes
    the clock and logging stays on. *)
Theorem record_written_when_due (Card : Type)
  (appendSD : Chunk -> Card -> Z * Card) (t : Z) (l : Logger) (card : Card) :
  (forall c card0, fst (appendSD c card0) <> appendFailed) ->
  firstTime l = false -> logData l = true -> offset l <> appendFailed ->
  AVR.uadd (loggedTime l) interval <= t ->
  let r := loopLog Card appendSD t (l, card) in
  let l' := fst (fst r) in
  snd r = recordChunks /\ logCount l' = AVR.uadd (logCount l) 1 /\
  loggedTime l' = t /\ logData l' = true.
Proof.
  intros Hok Hft Hlog Hoff Hdue. cbv zeta.
  remember (loopLog Card appendSD t (l, card)) as res eqn:Hres.
  unfold loopLog, lseq, lif in Hres. cbn [fst snd] in Hres.
  rewrite Hft, Hlog in Hres.
  assert ((t >=? AVR.uadd (loggedTime l) interval) = true) as Edue
    by (apply Z.geb_le; exact Hdue).
  rewrite Edue in Hres.
  pose proof Hoff as Hoff'. apply Z.eqb_neq in Hoff'. rewrite Hoff' in Hres.
  unfold lassign in Hres. cbn [fst snd firstTime set_loggedTime negb orb andb] in Hres.
  rewrite Hft in Hres. cbn [negb] in Hres.
  pose proof (writeRecord_run Card appendSD (set_loggedTime t l) card) as Hw. cbv zeta in Hw.
  pose proof (writeRecord_ok Card appendSD (set_loggedTime t l) card Hok) as Hw'. cbv zeta in Hw'.
  destruct (writeRecord Card appendSD (set_loggedTime t l, card)) as [[lw cardw] tr].
  cbn [fst snd] in Hw, Hw'.
  cbn [logData firstTime loggedTime logCount set_loggedTime] in Hw.
  destruct Hw' as (Htr & Hgood).
  destruct Hw as (W1 & W2 & W3 & [(_ & _ & Hcnt) | (_ & Hbad & _)]);
    [ | contradiction ].
  rewrite stopOnError_run in Hres.
  apply Z.eqb_neq in Hgood. rewrite Hgood, app_nil_r in Hres.
  subst res. cbn [fst snd].
  split; [ exact Htr | ]. split; [ exact Hcnt | ]. split; [ exact W3 | congruence ].
Qed.


(** X16 - the logging part of [loop] over many passes, the toggle button
    pressed at any of them and appends failing at any point: from a state
    with [firstTime] set, or with [loggedTime] not after the first clock,
    when the clock does not go back and stays [interval] seconds clear of
    the end of its range, the passes that start a record lie at least
    [interval] seconds apart. *)
Theorem records_interval_apart (Card : Type)
  (appendSD : Chunk -> Card -> Z * Card) (writeSD : bool -> Card -> Card)
  (startFile : Z -> Card -> Card)
  (passes : list (option Z * Z)) (lo : Z) (st : Logger * Card) :
  0 <= lo ->
  firstTime (fst st) = true \/ 0 <= loggedTime (fst st) <= lo ->
  ascending lo passes ->
  spaced (recordTimes Card appendSD writeSD startFile passes st).
Proof.
  intros Hlo Hst Hasc. destruct st as [l card].
  exact (proj1 (records_spaced_from Card appendSD writeSD startFile passes
                  lo l card Hlo Hst Hasc)).
Qed.

Lemma record_written_when_due_witness :
  let l := mkLogger true false 100 7 1 in
  let r := loopLog ListCard endlessAppend 400 (l, mkListCard [] true) in
  snd r = recordChunks /\ logCount (fst (fst r)) = 8 /\
  chunks (snd (fst r)) = recordChunks.
Proof.
  cbv zeta.
  pose proof (record_written_when_due ListCard endlessAppend 400
                (mkLogger true false 100 7 1) (mkListCard [] true)) as H.
  cbv zeta in H.
  destruct H as (H1 & H2 & _).
  - intros c card0. discriminate.
  - reflexivity.
  - reflexivity.
  - discriminate.
  - vm_compute. discriminate.
  - split; [ exact H1 | ]. split; [ exact H2 | reflexivity ].
Defined.

Lemma records_interval_apart_witness :
  let passes := [(Some 5, 10); (None, 20); (None, 400); (None, 500); (Some 600, 600);
                 (Some 650, 650); (None, 700); (None, 1000)] in
  let st := (bootLogger false, mkListCard [] false) in
  recordTimes ListCard (listAppend 100) listWrite listStart passes st = [400; 700; 1000] /\
  spaced (recordTimes ListCard (listAppend 100) listWrite listStart passes st).
Proof.
  cbv zeta. split; [ reflexivity | ].
  apply (records_interval_apart ListCard (listAppend 100) listWrite listStart _ 0).
  - lia.
  - left. reflexivity.
  - cbn. unfold interval. lia.
Defined.
